(** * A verification development for the Matdaan voting ledger

    Shallow embedding of [apps/blockchain/blockchain_service.py]:
    the [Block] class with its proof-of-work sealing, the
    [VotingBlockchain] chain and the [BlockchainService] API built on it,
    together with the two library primitives the ledger is defined by,
    [hashlib.sha256(..).hexdigest()] and [json.dumps(.., sort_keys=True)]. *)

From Stdlib Require Import ZArith Lia Ascii String.
From stdpp Require Import base option list gmap strings pretty sorting.

Local Open Scope Z_scope.

(** ** hashlib.sha256

    SHA-256 over a list of bytes (each a [Z] in [0, 256)), with 32-bit
    words as [Z] and the wrap-around written out. *)
Module Sha256.

Definition mask32 : Z := Z.ones 32.

Definition add32 (x y : Z) : Z := Z.land (x + y) mask32.

Definition rotr (n x : Z) : Z :=
  Z.lor (Z.shiftr x n) (Z.land (Z.shiftl x (32 - n)) mask32).

Definition not32 (x : Z) : Z := Z.lxor x mask32.

Definition ch (x y z : Z) : Z :=
  Z.lxor (Z.land x y) (Z.land (not32 x) z).

Definition maj (x y z : Z) : Z :=
  Z.lxor (Z.lxor (Z.land x y) (Z.land x z)) (Z.land y z).

Definition bsig0 (x : Z) : Z :=
  Z.lxor (Z.lxor (rotr 2 x) (rotr 13 x)) (rotr 22 x).

Definition bsig1 (x : Z) : Z :=
  Z.lxor (Z.lxor (rotr 6 x) (rotr 11 x)) (rotr 25 x).

Definition ssig0 (x : Z) : Z :=
  Z.lxor (Z.lxor (rotr 7 x) (rotr 18 x)) (Z.shiftr x 3).

Definition ssig1 (x : Z) : Z :=
  Z.lxor (Z.lxor (rotr 17 x) (rotr 19 x)) (Z.shiftr x 10).

(** The constants are fractional parts of roots of the first primes:
    the chaining value starts from the square roots of the first eight,
    the round constants are the cube roots of the first sixty-four, each
    cut to its first thirty-two fractional bits. *)
Definition primes : list Z :=
  [2; 3; 5; 7; 11; 13; 17; 19; 23; 29; 31; 37; 41; 43; 47; 53; 59; 61; 67;
   71; 73; 79; 83; 89; 97; 101; 103; 107; 109; 113; 127; 131; 137; 139; 149;
   151; 157; 163; 167; 173; 179; 181; 191; 193; 197; 199; 211; 223; 227;
   229; 233; 239; 241; 251; 257; 263; 269; 271; 277; 281; 283; 293; 307;
   311].

(** The largest [r] below [2 ^ bits] with [r ^ 3 <= n], found bit by bit
    from the top. *)
Fixpoint cube_root_bits (bits : nat) (n r : Z) : Z :=
  match bits with
  | O => r
  | S b =>
      let r' := r + Z.shiftl 1 (Z.of_nat b) in
      cube_root_bits b n (if r' * r' * r' <=? n then r' else r)
  end.

Definition cube_root_fraction (p : Z) : Z :=
  Z.land (cube_root_bits 36 (Z.shiftl p 96) 0) mask32.

Definition square_root_fraction (p : Z) : Z :=
  Z.land (Z.sqrt (Z.shiftl p 64)) mask32.

Definition round_constants : list Z :=
  Eval vm_compute in cube_root_fraction <$> primes.

(** The eight chaining words. *)
Record digest_state := DigestState {
  ha : Z; hb : Z; hc : Z; hd : Z; he : Z; hf : Z; hg : Z; hh : Z
}.

Definition state_of_words (ws : list Z) : digest_state :=
  DigestState (ws !!! 0%nat) (ws !!! 1%nat) (ws !!! 2%nat) (ws !!! 3%nat)
    (ws !!! 4%nat) (ws !!! 5%nat) (ws !!! 6%nat) (ws !!! 7%nat).

Definition initial_state : digest_state :=
  Eval vm_compute in state_of_words (square_root_fraction <$> take 8 primes).

(** Padding: a [0x80] byte, zero bytes up to 56 modulo 64, then the bit
    length as a 64-bit big-endian integer. *)
Fixpoint be_bytes (count : nat) (x : Z) : list Z :=
  match count with
  | O => []
  | S c => be_bytes c (Z.shiftr x 8) ++ [Z.land x 255]
  end.

Definition pad (msg : list Z) : list Z :=
  let len := Z.of_nat (length msg) in
  msg ++ [128] ++ replicate (Z.to_nat ((55 - len) mod 64)) 0
      ++ be_bytes 8 (8 * len).

(** Big-endian grouping of bytes into 32-bit words, and of the words
    into sixteen-word blocks. *)
Fixpoint to_words (bytes : list Z) : list Z :=
  match bytes with
  | b0 :: b1 :: b2 :: b3 :: rest =>
      (Z.lor (Z.shiftl b0 24)
         (Z.lor (Z.shiftl b1 16) (Z.lor (Z.shiftl b2 8) b3)))
      :: to_words rest
  | _ => []
  end.

Fixpoint to_blocks (fuel : nat) (words : list Z) : list (list Z) :=
  match fuel, words with
  | S f, _ :: _ => take 16 words :: to_blocks f (drop 16 words)
  | _, _ => []
  end.

(** Message schedule, kept newest word first: [recent] holds
    [W(t-1); W(t-2); ...]. *)
Fixpoint schedule (count : nat) (recent : list Z) : list Z :=
  match count with
  | O => recent
  | S c =>
      let w2 := recent !!! 1%nat in
      let w7 := recent !!! 6%nat in
      let w15 := recent !!! 14%nat in
      let w16 := recent !!! 15%nat in
      schedule c
        (add32 (add32 (add32 (ssig1 w2) w7) (ssig0 w15)) w16 :: recent)
  end.

Definition round (s : digest_state) (kw : Z * Z) : digest_state :=
  let t1 :=
    add32 (add32 (add32 (add32 (hh s) (bsig1 (he s)))
                    (ch (he s) (hf s) (hg s))) (fst kw)) (snd kw) in
  let t2 := add32 (bsig0 (ha s)) (maj (ha s) (hb s) (hc s)) in
  DigestState (add32 t1 t2) (ha s) (hb s) (hc s)
              (add32 (hd s) t1) (he s) (hf s) (hg s).

Definition compress (s : digest_state) (block : list Z) : digest_state :=
  let w := reverse (schedule 48 (reverse block)) in
  let r := foldl round s (zip round_constants w) in
  DigestState (add32 (ha s) (ha r)) (add32 (hb s) (hb r))
              (add32 (hc s) (hc r)) (add32 (hd s) (hd r))
              (add32 (he s) (he r)) (add32 (hf s) (hf r))
              (add32 (hg s) (hg r)) (add32 (hh s) (hh r)).

Definition digest_words (msg : list Z) : list Z :=
  let words := to_words (pad msg) in
  let s := foldl compress initial_state (to_blocks (length words) words) in
  [ha s; hb s; hc s; hd s; he s; hf s; hg s; hh s].

(** [hexdigest]: every word as eight lowercase hexadecimal digits. *)
Definition hex_digit (n : Z) : ascii :=
  if n <? 10 then ascii_of_N (Z.to_N (48 + n))
  else ascii_of_N (Z.to_N (87 + n)).

Fixpoint hex_of (digits : nat) (x : Z) (acc : string) : string :=
  match digits with
  | O => acc
  | S d => hex_of d (Z.shiftr x 4) (String (hex_digit (Z.land x 15)) acc)
  end.

Definition hexdigest (msg : list Z) : string :=
  foldr (λ w acc, hex_of 8 w acc) EmptyString (digest_words msg).

End Sha256.

(** Python [str]: a sequence of code points, here below 256, one per
    [ascii]. *)
Definition code_points (s : string) : list Z :=
  (λ c, Z.of_N (N_of_ascii c)) <$> String.list_ascii_of_string s.

(** [str.encode()]: UTF-8. *)
Definition utf8_char (c : Z) : list Z :=
  if c <? 128 then [c]
  else [Z.lor 192 (Z.shiftr c 6); Z.lor 128 (Z.land c 63)].

Definition encode (s : string) : list Z :=
  code_points s ≫= utf8_char.

(** [hashlib.sha256(s.encode()).hexdigest()] *)
Definition sha256_hex (s : string) : string :=
  Sha256.hexdigest (encode s).

(** The digests of the standard one-block and two-block test messages,
    and of the empty message. *)
Example sha256_hex_abc :
  sha256_hex "abc"
  = "ba7816bf8f01cfea414140de5dae2223b00361a396177a9cb410ff61f20015ad".
Proof. by vm_compute. Qed.

Example sha256_hex_empty :
  sha256_hex EmptyString
  = "e3b0c44298fc1c149afbf4c8996fb92427ae41e4649b934ca495991b7852b855".
Proof. by vm_compute. Qed.

Example sha256_hex_two_blocks :
  sha256_hex "abcdbcdecdefdefgefghfghighijhijkijkljklmklmnlmnomnopnopq"
  = "248d6a61d20638b8e5c026930c3e6039a33ce45964ff2167f6ecedd419db06c1".
Proof. by vm_compute. Qed.

Example round_constants_ends :
  head Sha256.round_constants = Some 0x428a2f98
  ∧ last Sha256.round_constants = Some 0xc67178f2
  ∧ Sha256.ha Sha256.initial_state = 0x6a09e667
  ∧ Sha256.hh Sha256.initial_state = 0x5be0cd19.
Proof. by vm_compute. Qed.

(** ** Python values

    The values that occur as arguments of the service and inside the
    [data] dictionary of a block: [None], integers and strings. *)
Inductive pyval :=
| PNone
| PInt (z : Z)
| PStr (s : string).

Global Instance pyval_eq_dec : EqDecision pyval.
Proof. solve_decision. Defined.

Global Instance pyval_countable : Countable pyval.
Proof.
  refine (inj_countable'
    (λ v, match v with
          | PNone => inl ()
          | PInt z => inr (inl z)
          | PStr s => inr (inr s)
          end)
    (λ x, match x with
          | inl _ => PNone
          | inr (inl z) => PInt z
          | inr (inr s) => PStr s
          end) _).
  by intros [].
Defined.

(** [a == b] on these values. *)
Definition py_eq (a b : pyval) : bool := bool_decide (a = b).

(** Truth value of [v] in a condition: [None], [0] and the empty string
    are false. *)
Definition truthy (v : pyval) : bool :=
  match v with
  | PNone => false
  | PInt z => negb (z =? 0)
  | PStr s => negb (bool_decide (s = EmptyString))
  end.

(** [str(v)] *)
Definition py_str (v : pyval) : string :=
  match v with
  | PNone => "None"
  | PInt z => pretty z
  | PStr s => s
  end.

(** A [dict] with string keys; [d.get(k)] is [None] for a missing key. *)
Abbreviation dict := (gmap string pyval).

Definition get (k : string) (d : dict) : pyval :=
  default PNone (d !! k).

(** [s * n] for a one-character string [s], and the slice [s[:n]]. *)
Fixpoint str_replicate (n : nat) (c : ascii) : string :=
  match n with
  | O => EmptyString
  | S m => String c (str_replicate m c)
  end.

Fixpoint str_take (n : nat) (s : string) : string :=
  match n, s with
  | S m, String c r => String c (str_take m r)
  | _, _ => EmptyString
  end.

Definition py_repeat (c : ascii) (n : Z) : string :=
  str_replicate (Z.to_nat n) c.

Definition py_slice_to (s : string) (n : Z) : string :=
  if n <? 0 then str_take (Z.to_nat (Z.of_nat (String.length s) + n)) s
  else str_take (Z.to_nat n) s.

(** ** json.dumps(obj, sort_keys=True)

    Default separators [", "] and [": "], [ensure_ascii] on. *)
Module Json.

#[warnings="-register-all"] Inductive json :=
| JNull
| JInt (z : Z)
| JStr (s : string)
| JObj (items : list (string * json)).

Definition dquote : ascii := ascii_of_N 34.

(** Everything outside [' '..'~'], the quote and the backslash is
    escaped. *)
Definition escape_char (c : ascii) : string :=
  let n := N_of_ascii c in
  if (n =? 34)%N then String "\" (String dquote EmptyString)
  else if (n =? 92)%N then "\\"
  else if (n =? 10)%N then "\n"
  else if (n =? 13)%N then "\r"
  else if (n =? 9)%N then "\t"
  else if (n =? 8)%N then "\b"
  else if (n =? 12)%N then "\f"
  else if ((n <? 32) || (126 <? n))%N
    then "\u00" +:+ Sha256.hex_of 2 (Z.of_N n) EmptyString
  else String c EmptyString.

Fixpoint escape (s : string) : string :=
  match s with
  | EmptyString => EmptyString
  | String c r => escape_char c +:+ escape r
  end.

Definition quote (s : string) : string :=
  String dquote (escape s +:+ String dquote EmptyString).

(** Items are ordered by key, by code point. *)
Definition key_le (a b : string * string) : Prop := String.le a.1 b.1.

Global Instance key_le_dec : RelDecision key_le.
Proof. intros a b. unfold key_le. apply _. Defined.

Definition sort_items (items : list (string * string))
  : list (string * string) :=
  merge_sort key_le items.

Fixpoint join (sep : string) (parts : list string) : string :=
  match parts with
  | [] => EmptyString
  | [p] => p
  | p :: rest => p +:+ sep +:+ join sep rest
  end.

Definition render_item (kv : string * string) : string :=
  quote kv.1 +:+ ": " +:+ kv.2.

Fixpoint dumps (j : json) : string :=
  match j with
  | JNull => "null"
  | JInt z => pretty z
  | JStr s => quote s
  | JObj items =>
      let rendered :=
        (fix go (l : list (string * json)) : list (string * string) :=
           match l with
           | [] => []
           | (k, v) :: r => (k, dumps v) :: go r
           end) items in
      "{" +:+ join ", " (render_item <$> sort_items rendered) +:+ "}"
  end.

Definition of_pyval (v : pyval) : json :=
  match v with
  | PNone => JNull
  | PInt z => JInt z
  | PStr s => JStr s
  end.

Definition of_dict (d : dict) : json :=
  JObj (prod_map id of_pyval <$> map_to_list d).

End Json.

(** ** Outcomes of a call

    A call returns a value, raises an exception, or is still running when
    the fuel given to its mining loop is used up. *)
Inductive exn := AttributeError | IndexError.

Inductive result (A : Type) :=
| Ok (a : A)
| Raise (e : exn)
| OutOfFuel.
Arguments Ok {A} a.
Arguments Raise {A} e.
Arguments OutOfFuel {A}.

(** ** class Block *)
Record Block := mkBlock {
  index : Z;
  timestamp : string;
  data : dict;
  previous_hash : string;
  nonce : Z;
  hash : string
}.

Definition block_json (self : Block) : Json.json :=
  Json.JObj [ ("index", Json.JInt (index self));
              ("timestamp", Json.JStr (timestamp self));
              ("data", Json.of_dict (data self));
              ("previous_hash", Json.JStr (previous_hash self));
              ("nonce", Json.JInt (nonce self)) ].

Definition calculate_hash (self : Block) : string :=
  sha256_hex (Json.dumps (block_json self)).

(** [Block(index, timestamp, data, previous_hash)] *)
Definition Block_init (index : Z) (timestamp : string) (data : dict)
    (previous_hash : string) : Block :=
  let self := mkBlock index timestamp data previous_hash 0 EmptyString in
  mkBlock index timestamp data previous_hash 0 (calculate_hash self).

(** One pass through the body of the mining loop. *)
Definition mine_step (self : Block) : Block :=
  let self' := mkBlock (index self) (timestamp self) (data self)
                 (previous_hash self) (nonce self + 1) (hash self) in
  mkBlock (index self') (timestamp self') (data self')
    (previous_hash self') (nonce self') (calculate_hash self').

Definition sealed (difficulty : Z) (self : Block) : bool :=
  bool_decide (py_slice_to (hash self) difficulty = py_repeat "0" difficulty).

Fixpoint mine_block (fuel : nat) (difficulty : Z) (self : Block)
    : result Block :=
  if sealed difficulty self then Ok self
  else match fuel with
       | O => OutOfFuel
       | S fuel' => mine_block fuel' difficulty (mine_step self)
       end.

Definition genesis_data : dict :=
  {[ "type" := PStr "genesis";
     "message" := PStr "Genesis Block - Matdaan Voting System" ]}.

(** ** Stateful calls

    A method of an object with state [S] takes the state, and gives an
    outcome and the state it leaves behind. *)
Definition py (S A : Type) : Type := S → result A * S.

Global Instance py_ret {S} : MRet (py S) := λ A a s, (Ok a, s).

Global Instance py_bind {S} : MBind (py S) := λ A B k m s,
  match m s with
  | (Ok a, s') => k a s'
  | (Raise e, s') => (Raise e, s')
  | (OutOfFuel, s') => (OutOfFuel, s')
  end.

Global Instance py_fmap {S} : FMap (py S) := λ A B f m,
  a ← m; mret (f a).

Definition raise {S A} (e : exn) : py S A := λ s, (Raise e, s).
Definition gets {S A} (f : S → A) : py S A := λ s, (Ok (f s), s).
Definition modify {S} (f : S → S) : py S unit := λ s, (Ok tt, f s).
Definition lift {S A} (r : result A) : py S A := λ s, (r, s).

(** ** class VotingBlockchain *)
Record VotingBlockchain := mkChain {
  chain : list Block;
  difficulty : Z
}.

Definition append (b : Block) (self : VotingBlockchain) : VotingBlockchain :=
  mkChain (chain self ++ [b]) (difficulty self).

(** [now] stands for the value of [str(datetime.now())] at the call. *)
Definition create_genesis_block (fuel : nat) (now : string)
    : py VotingBlockchain unit :=
  d ← gets difficulty;
  genesis_block ← lift (mine_block fuel d (Block_init 0 now genesis_data "0"));
  modify (append genesis_block).

(** [VotingBlockchain()] *)
Definition VotingBlockchain_init (fuel : nat) (now : string)
    : result VotingBlockchain :=
  let self := mkChain [] 2 in
  match create_genesis_block fuel now self with
  | (Ok _, self') => Ok self'
  | (Raise e, _) => Raise e
  | (OutOfFuel, _) => OutOfFuel
  end.

(** [self.chain[-1]] *)
Definition get_latest_block : py VotingBlockchain Block :=
  c ← gets chain;
  match last c with
  | Some b => mret b
  | None => raise IndexError
  end.

Definition add_block (fuel : nat) (data : dict) (now : string)
    : py VotingBlockchain Block :=
  n ← gets (λ self, Z.of_nat (length (chain self)));
  latest ← get_latest_block;
  let new_block := Block_init n now data (hash latest) in
  d ← gets difficulty;
  mined ← lift (mine_block fuel d new_block);
  modify (append mined);;
  mret mined.

Global Instance Block_inhabited : Inhabited Block :=
  populate (mkBlock 0 EmptyString ∅ EmptyString 0 EmptyString).

(** The body of the validation loop at index [i], and the loop over
    [range(1, len(self.chain))] with its early returns. *)
Fixpoint is_chain_valid_loop (c : list Block) (range : list nat) : bool :=
  match range with
  | [] => true
  | i :: range' =>
      let current_block := c !!! i in
      let previous_block := c !!! (i - 1)%nat in
      if negb (bool_decide (hash current_block = calculate_hash current_block))
      then false
      else if negb (bool_decide
                      (previous_hash current_block = hash previous_block))
      then false
      else is_chain_valid_loop c range'
  end.

Definition is_chain_valid (self : VotingBlockchain) : bool :=
  is_chain_valid_loop (chain self) (seq 1 (length (chain self) - 1)).

Fixpoint get_block_by_hash_loop (c : list Block) (block_hash : pyval)
    : option Block :=
  match c with
  | [] => None
  | block :: rest =>
      if py_eq (PStr (hash block)) block_hash then Some block
      else get_block_by_hash_loop rest block_hash
  end.

Definition get_block_by_hash (block_hash : pyval) (self : VotingBlockchain)
    : option Block :=
  get_block_by_hash_loop (chain self) block_hash.

Definition get_blocks_by_election (election_id : pyval)
    (self : VotingBlockchain) : list Block :=
  foldl (λ blocks block,
           if py_eq (get "type" (data block)) (PStr "vote")
              && py_eq (get "election_id" (data block)) election_id
           then blocks ++ [block]
           else blocks)
        [] (chain self).

(** ** class BlockchainService *)
Record BlockchainService := mkService {
  blockchain : VotingBlockchain
}.

(** [BlockchainService()] *)
Definition BlockchainService_init (fuel : nat) (now : string)
    : result BlockchainService :=
  match VotingBlockchain_init fuel now with
  | Ok bc => Ok (mkService bc)
  | Raise e => Raise e
  | OutOfFuel => OutOfFuel
  end.

(** A call on [self.blockchain]. *)
Definition on_blockchain {A} (m : py VotingBlockchain A)
    : py BlockchainService A := λ self,
  let (r, bc) := m (blockchain self) in (r, mkService bc).

(** [s.encode()] on an argument: only a [str] has the method. *)
Definition py_encode_hex (v : pyval) : result string :=
  match v with
  | PStr s => Ok (sha256_hex s)
  | _ => Raise AttributeError
  end.

Record CastReceipt := mkReceipt {
  success : bool;
  block_hash : string;
  transaction_hash : pyval;
  block_index : Z;
  receipt_timestamp : string
}.

(** The [vote_data] dictionary. *)
Definition make_vote_data (voter_hash : string) (election_id : pyval)
    (candidate_hash : string) (now : string) (token : string) : dict :=
  {[ "type" := PStr "vote";
     "voter_hash" := PStr voter_hash;
     "election_id" := election_id;
     "candidate_hash" := PStr candidate_hash;
     "timestamp" := PStr now;
     "transaction_id" := PStr token ]}.

(** [now_vote] and [now_block] stand for the two readings of the clock,
    [token] for [secrets.token_hex(16)]. *)
Definition cast_vote_to_blockchain (fuel : nat)
    (voter_id election_id candidate_id : pyval)
    (now_vote token now_block : string) : py BlockchainService CastReceipt :=
  voter_hash ← lift (py_encode_hex voter_id);
  let candidate_hash := sha256_hex (py_str candidate_id) in
  let vote_data :=
    make_vote_data voter_hash election_id candidate_hash now_vote token in
  block ← on_blockchain (add_block fuel vote_data now_block);
  mret (mkReceipt true (hash block) (get "transaction_id" vote_data)
          (index block) (timestamp block)).

Inductive Verification :=
| NotVerified (message : string)
| Verified (is_valid_chain : bool) (block_index : Z) (timestamp : string)
    (data : dict) (message : string).

Definition verify_vote (block_hash : pyval) (self : BlockchainService)
    : Verification :=
  match get_block_by_hash block_hash (blockchain self) with
  | None => NotVerified "Vote not found on blockchain"
  | Some block =>
      let is_valid := is_chain_valid (blockchain self) in
      Verified is_valid (index block) (timestamp block) (data block)
        "Vote verified on blockchain"
  end.

Record ElectionResults := mkResults {
  election_id : pyval;
  total_votes : Z;
  vote_distribution : gmap pyval Z;
  blockchain_verified : bool
}.

Definition count_votes (blocks : list Block) : gmap pyval Z :=
  foldl (λ (vote_counts : gmap pyval Z) block,
           let candidate_hash := get "candidate_hash" (data block) in
           if truthy candidate_hash
           then <[candidate_hash := default 0 (vote_counts !! candidate_hash) + 1]>
                  vote_counts
           else vote_counts)
        ∅ blocks.

Definition get_election_results (election_id : pyval)
    (self : BlockchainService) : ElectionResults :=
  let blocks := get_blocks_by_election election_id (blockchain self) in
  let vote_counts := count_votes blocks in
  mkResults election_id (Z.of_nat (length blocks)) vote_counts
    (is_chain_valid (blockchain self)).

Fixpoint has_voter_voted_loop (blocks : list Block) (voter_hash : string)
    : bool :=
  match blocks with
  | [] => false
  | block :: rest =>
      if py_eq (get "voter_hash" (data block)) (PStr voter_hash) then true
      else has_voter_voted_loop rest voter_hash
  end.

Definition has_voter_voted (voter_id election_id : pyval)
    (self : BlockchainService) : result bool :=
  match py_encode_hex voter_id with
  | Ok voter_hash =>
      let blocks := get_blocks_by_election election_id (blockchain self) in
      Ok (has_voter_voted_loop blocks voter_hash)
  | Raise e => Raise e
  | OutOfFuel => OutOfFuel
  end.

Record Stats := mkStats {
  total_blocks : Z;
  is_valid : bool;
  latest_block_hash : string;
  stats_difficulty : Z
}.

Definition get_blockchain_stats (self : BlockchainService) : result Stats :=
  match get_latest_block (blockchain self) with
  | (Ok latest, _) =>
      Ok (mkStats (Z.of_nat (length (chain (blockchain self))))
            (is_chain_valid (blockchain self)) (hash latest)
            (difficulty (blockchain self)))
  | (Raise e, _) => Raise e
  | (OutOfFuel, _) => OutOfFuel
  end.

(** [Block.to_dict], the six fields in the order the dictionary lists
    them. *)
Definition to_dict (self : Block) : Json.json :=
  Json.JObj [ ("index", Json.JInt (index self));
              ("timestamp", Json.JStr (timestamp self));
              ("data", Json.of_dict (data self));
              ("previous_hash", Json.JStr (previous_hash self));
              ("nonce", Json.JInt (nonce self));
              ("hash", Json.JStr (hash self)) ].

Definition export_blockchain (self : BlockchainService) : list Json.json :=
  to_dict <$> chain (blockchain self).

(** ** The service as a state machine

    One constructor per public operation, with the arguments of the call
    and the readings of the clock and of the random source it makes. *)
Inductive request :=
| CastVote (voter_id election_id candidate_id : pyval)
    (now_vote token now_block : string)
| VerifyVote (block_hash : pyval)
| ElectionResultsOf (election_id : pyval)
| HasVoterVoted (voter_id election_id : pyval)
| BlockchainStats
| ExportBlockchain.

Inductive response :=
| RCast (r : CastReceipt)
| RVerify (v : Verification)
| RResults (r : ElectionResults)
| RHasVoted (b : bool)
| RStats (s : Stats)
| RExport (l : list Json.json).

Definition serve (fuel : nat) (req : request)
    : py BlockchainService response :=
  match req with
  | CastVote v e c now_vote token now_block =>
      RCast <$> cast_vote_to_blockchain fuel v e c now_vote token now_block
  | VerifyVote h => gets (λ self, RVerify (verify_vote h self))
  | ElectionResultsOf e =>
      gets (λ self, RResults (get_election_results e self))
  | HasVoterVoted v e =>
      self ← gets id; RHasVoted <$> lift (has_voter_voted v e self)
  | BlockchainStats =>
      self ← gets id; RStats <$> lift (get_blockchain_stats self)
  | ExportBlockchain => gets (λ self, RExport (export_blockchain self))
  end.


(** ** Concrete runs used as examples

    Timestamps and tokens of a recorded session. *)
Definition demo_genesis_time : string := "2024-01-15 10:30:45.000007".

Definition demo_service : result BlockchainService :=
  BlockchainService_init 8 demo_genesis_time.

Definition demo_vote_A : request :=
  CastVote (PStr "voterA") (PStr "e1") (PStr "cand1")
    "2024-01-15 10:31:00.000001" "00112233445566778899aabbccddeeff"
    "2024-01-15 10:31:00.000092".

Definition demo_vote_B : request :=
  CastVote (PStr "voterB") (PStr "e1") (PStr "cand2")
    "2024-01-15 10:32:00.000001" "ffeeddccbbaa99887766554433221100"
    "2024-01-15 10:32:00.000065".

(** A block to mine on its own. *)
Definition demo_genesis : Block :=
  Block_init 0 "2024-01-15 10:30:45.000048" genesis_data "0".

Definition demo_genesis_mined : Block :=
  Eval vm_compute in
    match mine_block 5 2 demo_genesis with
    | Ok mined => mined
    | _ => demo_genesis
    end.

(** The state a successful run leaves, with an empty service (no chain at
    all) standing for a run that did not finish. *)
Definition state_of (r : result BlockchainService) : BlockchainService :=
  match r with
  | Ok st => st
  | _ => mkService (mkChain [] 2)
  end.

Definition demo_state_0 : BlockchainService :=
  Eval vm_compute in state_of demo_service.

Definition demo_state_1 : BlockchainService :=
  Eval vm_compute in (serve 8 demo_vote_A demo_state_0).2.

Definition demo_state_2 : BlockchainService :=
  Eval vm_compute in (serve 8 demo_vote_B demo_state_1).2.

(** ** Reachable states *)

(** Chains built by [VotingBlockchain()] and calls of [add_block], whatever
    the outcome of a call. *)
Inductive chain_reachable : VotingBlockchain → Prop :=
| reachable_new fuel now bc :
    VotingBlockchain_init fuel now = Ok bc → chain_reachable bc
| reachable_add_block fuel data now bc r bc' :
    chain_reachable bc → add_block fuel data now bc = (r, bc') →
    chain_reachable bc'.

(** Services built by [BlockchainService()] and calls of its public
    operations. *)
Inductive service_reachable : BlockchainService → Prop :=
| service_new fuel now st :
    BlockchainService_init fuel now = Ok st → service_reachable st
| service_step fuel req st r st' :
    service_reachable st → serve fuel req st = (r, st') →
    service_reachable st'.

(** The chain invariant: [chain[i].previous_hash == chain[i-1].hash] and
    [chain[i].index == i] for [0 < i < len(chain)]. *)
Definition linked (c : list Block) : Prop :=
  ∀ i : nat, (0 < i < length c)%nat →
    previous_hash (c !!! i) = hash (c !!! (i - 1)%nat)
    ∧ index (c !!! i) = Z.of_nat i.

(** Every block carries the digest of its own fields. *)
Definition self_hashed (c : list Block) : Prop :=
  Forall (λ b, hash b = calculate_hash b) c.

(** ** Vocabulary of the statements *)

(** The characters of a lowercase hexadecimal digest. *)
Definition is_lower_hex (c : ascii) : bool :=
  let n := N_of_ascii c in
  ((48 <=? n) && (n <=? 57) || (97 <=? n) && (n <=? 102))%N.

Fixpoint lower_hex (s : string) : bool :=
  match s with
  | EmptyString => true
  | String c r => is_lower_hex c && lower_hex r
  end.

(** What mining leaves alone. *)
Definition same_pre_nonce_fields (a b : Block) : Prop :=
  index a = index b ∧ timestamp a = timestamp b ∧ data a = data b
  ∧ previous_hash a = previous_hash b.

(** A block that records a vote in election [e]. *)
Definition vote_block_of (e : pyval) (b : Block) : Prop :=
  get "type" (data b) = PStr "vote" ∧ get "election_id" (data b) = e.

Global Instance vote_block_of_dec e b : Decision (vote_block_of e b).
Proof. unfold vote_block_of. apply _. Defined.

(** The sum of the counts of a vote distribution. *)
Definition sum_counts (m : gmap pyval Z) : Z :=
  map_fold (λ _ n acc, n + acc) 0 m.


(** Vote blocks as the service writes them carry a candidate hash that
    counts as true in a condition. *)
Definition votes_well_formed (c : list Block) : Prop :=
  Forall (λ b, get "type" (data b) = PStr "vote" →
               truthy (get "candidate_hash" (data b)) = true) c.

(** The canonical serialization the hash rule names: the five fields of
    the block under their keys in lexicographic order, [data] before
    [index] before [nonce] before [previous_hash] before [timestamp]. *)
Definition canonical_json (b : Block) : string :=
  "{" +:+ Json.quote "data" +:+ ": " +:+ Json.dumps (Json.of_dict (data b))
  +:+ ", " +:+ Json.quote "index" +:+ ": " +:+ pretty (index b)
  +:+ ", " +:+ Json.quote "nonce" +:+ ": " +:+ pretty (nonce b)
  +:+ ", " +:+ Json.quote "previous_hash" +:+ ": "
  +:+ Json.quote (previous_hash b)
  +:+ ", " +:+ Json.quote "timestamp" +:+ ": " +:+ Json.quote (timestamp b)
  +:+ "}".

(** Altering a block behind the ledger's back: the nonce is changed and
    the stored hash is kept. *)
Definition with_nonce (n : Z) (b : Block) : Block :=
  mkBlock (index b) (timestamp b) (data b) (previous_hash b) n (hash b).

(** The block after [k] passes through the body of the mining loop. *)
Fixpoint mine_steps (k : nat) (self : Block) : Block :=
  match k with
  | O => self
  | S k' => mine_steps k' (mine_step self)
  end.

(** Altering a block behind the ledger's back: the stored hash is
    replaced and the fields are kept. *)
Definition with_hash (h : string) (b : Block) : Block :=
  mkBlock (index b) (timestamp b) (data b) (previous_hash b) (nonce b) h.

(** The vote blocks of election [e] that name candidate hash [k]. *)
Definition votes_for (e k : pyval) (c : list Block) : list Block :=
  filter (λ b, vote_block_of e b ∧ get "candidate_hash" (data b) = k) c.

(** Runs of the service: any number of calls of its public operations,
    one after the other. *)
Inductive service_steps : BlockchainService → BlockchainService → Prop :=
| steps_none st : service_steps st st
| steps_more fuel req st st' r st'' :
    service_steps st st' → serve fuel req st' = (r, st'') →
    service_steps st st''.



(** A vote record handed straight to [VotingBlockchain.add_block], the
    way any holder of [service.blockchain] can: it names the election and
    no candidate. *)
Definition demo_bare_vote : dict :=
  {[ "type" := PStr "vote"; "election_id" := PStr "e1" ]}.

Definition demo_bare_time : string := "2024-01-15 10:34:00.000003".

Definition demo_bare_chain : VotingBlockchain :=
  Eval vm_compute in
    (add_block 8 demo_bare_vote demo_bare_time (blockchain demo_state_0)).2.

(** ** Reading back what [json.dumps] wrote

    The inverse of [Json.escape], for the escapes it writes: the text
    after an opening quote is read up to the closing quote, giving the
    string and what follows it. *)
Definition hex_value (c : ascii) : option N :=
  let n := N_of_ascii c in
  if ((48 <=? n) && (n <=? 57))%N then Some (n - 48)%N
  else if ((97 <=? n) && (n <=? 102))%N then Some (n - 87)%N
  else None.

Definition simple_escape (c : ascii) : option ascii :=
  let n := N_of_ascii c in
  if (n =? 34)%N then Some c
  else if (n =? 92)%N then Some c
  else if (n =? 110)%N then Some (ascii_of_N 10)
  else if (n =? 114)%N then Some (ascii_of_N 13)
  else if (n =? 116)%N then Some (ascii_of_N 9)
  else if (n =? 98)%N then Some (ascii_of_N 8)
  else if (n =? 102)%N then Some (ascii_of_N 12)
  else None.

Definition read_more (c : ascii) (r : option (string * string))
    : option (string * string) :=
  match r with
  | Some (s, rest) => Some (String c s, rest)
  | None => None
  end.

Fixpoint read_string (s : string) : option (string * string) :=
  match s with
  | EmptyString => None
  | String c r =>
      if (N_of_ascii c =? 34)%N then Some (EmptyString, r)
      else if (N_of_ascii c =? 92)%N then
        match r with
        | String e r' =>
            if (N_of_ascii e =? 117)%N then
              match r' with
              | String _ (String _ (String h1 (String h2 r''))) =>
                  match hex_value h1, hex_value h2 with
                  | Some a, Some b =>
                      read_more (ascii_of_N (16 * a + b)) (read_string r'')
                  | _, _ => None
                  end
              | _ => None
              end
            else
              match simple_escape e with
              | Some ch => read_more ch (read_string r')
              | None => None
              end
        | EmptyString => None
        end
      else read_more c (read_string r)
  end.

(** The characters of a decimal numeral, and the characters that follow a
    value inside an object. *)
Definition is_numeric (c : ascii) : bool :=
  let n := N_of_ascii c in
  ((48 <=? n) && (n <=? 57) || (n =? 45))%N.

Fixpoint numeric (s : string) : bool :=
  match s with
  | EmptyString => true
  | String c r => is_numeric c && numeric r
  end.

Definition delimited (s : string) : Prop :=
  ∃ rest, s = "," +:+ rest ∨ s = "}" +:+ rest.

(** One item of a serialized data object. *)
Definition render_kv (kv : string * pyval) : string :=
  Json.quote kv.1 +:+ ": " +:+ Json.dumps (Json.of_pyval kv.2).

(** The items of a data object, the closing brace and what follows. *)
Definition items_text (l : list (string * pyval)) (rest : string) : string :=
  Json.join ", " (render_kv <$> l) +:+ "}" +:+ rest.

(** Agreement on the five fields that are hashed. *)
Definition same_hashed_fields (a b : Block) : Prop :=
  index a = index b ∧ timestamp a = timestamp b ∧ data a = data b
  ∧ previous_hash a = previous_hash b ∧ nonce a = nonce b.

(** ** The caller: [api_cast_vote] of [apps/voting/views.py]

    The rows of [apps/voting/models.py], with the fields the view reads.
    Foreign keys are the keys of the rows they point to and instants are
    integers. *)
Record Voter := mkVoter {
  voter_pk : Z;
  aadhaar_number : string;
  voter_constituency : Z;
  voter_has_voted : bool
}.

Record Election := mkElection {
  election_pk : Z;
  status : string;
  start_date : Z;
  end_date : Z
}.

Record Candidate := mkCandidate {
  candidate_pk : Z;
  candidate_constituency : Z
}.

(** [cast_at] is the row's creation time as [str] prints it and
    [cast_at_iso] as [isoformat()] does. *)
Record Vote := mkVote {
  vote_voter : Voter;
  vote_election : Election;
  vote_candidate : Candidate;
  vote_blockchain_hash : string;
  vote_transaction_hash : pyval;
  cast_at : string;
  cast_at_iso : string
}.

(** [Election.is_active], with [now] for [timezone.now()]. *)
Definition is_active (self : Election) (now : Z) : bool :=
  bool_decide (status self = "live")
  && ((start_date self <=? now) && (now <=? end_date self)).

(** [Vote.generate_receipt_hash] *)
Definition generate_receipt_hash (self : Vote) : string :=
  sha256_hex (aadhaar_number (vote_voter self)
              +:+ pretty (election_pk (vote_election self))
              +:+ cast_at self).

(** What a call into a collaborator outside the repository gives: a value,
    or an exception with its message. *)
Inductive outcome (A : Type) :=
| Returned (a : A)
| Thrown (message : string).
Arguments Returned {A} a.
Arguments Thrown {A} message.

(** The request as the view reads it: the method, [session.get('voter_id')]
    and what [json.loads(request.body)] followed by the two [data.get]
    calls gives, the election id and the candidate id. *)
Record Request := mkRequest {
  method : string;
  session_voter_id : pyval;
  body_fields : outcome (pyval * pyval)
}.

(** The object-relational mapper, over a database [DB]: the three
    [objects.get(id=..)], [Vote.objects.filter(..).exists()],
    [Vote.objects.create(..)], which gives the two printings of the
    creation time and the database with the row, and [voter.save()]. *)
Record Orm (DB : Type) := mkOrm {
  Voter_get : pyval → DB → outcome Voter;
  Election_get : pyval → DB → outcome Election;
  Candidate_get : pyval → DB → outcome Candidate;
  Vote_exists : Voter → Election → DB → bool;
  Vote_create : Request → Voter → Election → Candidate → string → pyval →
                DB → outcome (string * string * DB);
  Voter_save : Voter → DB → outcome DB
}.
Arguments Voter_get {DB} _ _ _.
Arguments Election_get {DB} _ _ _.
Arguments Candidate_get {DB} _ _ _.
Arguments Vote_exists {DB} _ _ _ _.
Arguments Vote_create {DB} _ _ _ _ _ _ _ _.
Arguments Voter_save {DB} _ _ _.

(** What the [except Exception] clause caught. *)
Inductive cause :=
| LedgerRaised (e : exn)
| CollaboratorRaised (message : string).

(** The responses of the view, one constructor per [JsonResponse] it
    builds. *)
Inductive JsonResponse :=
| InvalidRequestMethod
| NotLoggedIn
| ElectionNotActive
| AlreadyVoted
| InvalidCandidate
| BlockchainRecordingFailed
| FailedToCastVote (c : cause)
| VoteCastSuccessfully (blockchain_hash : string) (transaction_hash : pyval)
    (receipt_hash : string) (timestamp : string).

Definition mark_voted (voter : Voter) : Voter :=
  mkVoter (voter_pk voter) (aadhaar_number voter) (voter_constituency voter)
    true.

(** The view acts on the database and on the module's ledger service. *)
Definition api_cast_vote {DB} (orm : Orm DB) (fuel : nat) (request : Request)
    (now : Z) (now_vote token now_block : string)
    (s : DB * BlockchainService)
    : result JsonResponse * (DB * BlockchainService) :=
  let db := s.1 in
  let blockchain_service := s.2 in
  if negb (bool_decide (method request = "POST"))
  then (Ok InvalidRequestMethod, s)
  else
    let voter_id := session_voter_id request in
    if negb (truthy voter_id) then (Ok NotLoggedIn, s)
    else
      match body_fields request with
      | Thrown m => (Ok (FailedToCastVote (CollaboratorRaised m)), s)
      | Returned (election_id, candidate_id) =>
      match Voter_get orm voter_id db with
      | Thrown m => (Ok (FailedToCastVote (CollaboratorRaised m)), s)
      | Returned voter =>
      match Election_get orm election_id db with
      | Thrown m => (Ok (FailedToCastVote (CollaboratorRaised m)), s)
      | Returned election =>
      match Candidate_get orm candidate_id db with
      | Thrown m => (Ok (FailedToCastVote (CollaboratorRaised m)), s)
      | Returned candidate =>
          if negb (is_active election now) then (Ok ElectionNotActive, s)
          else if Vote_exists orm voter election db then (Ok AlreadyVoted, s)
          else if negb (bool_decide (candidate_constituency candidate
                                     = voter_constituency voter))
          then (Ok InvalidCandidate, s)
          else
            match cast_vote_to_blockchain fuel
                    (PStr (aadhaar_number voter)) (PInt (election_pk election))
                    (PInt (candidate_pk candidate)) now_vote token now_block
                    blockchain_service
            with
            | (OutOfFuel, service') => (OutOfFuel, (db, service'))
            | (Raise e, service') =>
                (Ok (FailedToCastVote (LedgerRaised e)), (db, service'))
            | (Ok blockchain_result, service') =>
                if negb (success blockchain_result)
                then (Ok BlockchainRecordingFailed, (db, service'))
                else
                  match Vote_create orm request voter election candidate
                          (block_hash blockchain_result)
                          (transaction_hash blockchain_result) db
                  with
                  | Thrown m =>
                      (Ok (FailedToCastVote (CollaboratorRaised m)),
                       (db, service'))
                  | Returned (created, created_iso, db1) =>
                      let vote :=
                        mkVote voter election candidate
                          (block_hash blockchain_result)
                          (transaction_hash blockchain_result)
                          created created_iso in
                      match Voter_save orm (mark_voted voter) db1 with
                      | Thrown m =>
                          (Ok (FailedToCastVote (CollaboratorRaised m)),
                           (db1, service'))
                      | Returned db2 =>
                          (Ok (VoteCastSuccessfully
                                 (block_hash blockchain_result)
                                 (transaction_hash blockchain_result)
                                 (generate_receipt_hash vote)
                                 (cast_at_iso vote)),
                           (db2, service'))
                      end
                  end
            end
      end end end end.

(** A toy database for the examples: the pairs of voter and election that
    have a vote row; one voter, one election, two candidates. *)
Definition demo_voter : Voter := mkVoter 1 "123412341234" 10 false.
Definition demo_election : Election := mkElection 1 "live" 100 200.
Definition demo_candidate : Candidate := mkCandidate 7 10.

Definition demo_orm (create_fails : bool) : Orm (list (Z * Z)) :=
  mkOrm (list (Z * Z))
    (λ id _, if bool_decide (id = PInt 1) then Returned demo_voter
             else Thrown "Voter matching query does not exist.")
    (λ id _, if bool_decide (id = PInt 1) then Returned demo_election
             else Thrown "Election matching query does not exist.")
    (λ id _, if bool_decide (id = PInt 7) then Returned demo_candidate
             else Thrown "Candidate matching query does not exist.")
    (λ voter election db,
       bool_decide ((voter_pk voter, election_pk election) ∈ db))
    (λ _ voter election _ _ _ db,
       if create_fails then Thrown "UNIQUE constraint failed"
       else Returned ("2024-01-15 10:40:01.500000+00:00",
                      "2024-01-15T10:40:01.500000+00:00",
                      (voter_pk voter, election_pk election) :: db))
    (λ _ db, Returned db).

Definition demo_request : Request :=
  mkRequest "POST" (PInt 1) (Returned (PInt 1, PInt 7)).

(** * Properties *)

(** Opening the calls of the state monad. *)
Ltac py_unfold :=
  repeat progress
    unfold mbind, py_bind, mret, py_ret, fmap, py_fmap, gets, modify, lift,
      raise, on_blockchain in *;
  cbn beta in *.

(** ** Mining *)

Lemma calculate_hash_ignores_hash i t d p n h1 h2 :
  calculate_hash (mkBlock i t d p n h1) = calculate_hash (mkBlock i t d p n h2).
Proof. reflexivity. Qed.

Lemma Block_init_consistent i t d p :
  hash (Block_init i t d p) = calculate_hash (Block_init i t d p).
Proof. reflexivity. Qed.

Lemma mine_step_consistent self :
  hash (mine_step self) = calculate_hash (mine_step self).
Proof. reflexivity. Qed.

Lemma mine_block_unfold fuel d self :
  mine_block fuel d self =
    if sealed d self then Ok self
    else match fuel with
         | O => OutOfFuel
         | S fuel' => mine_block fuel' d (mine_step self)
         end.
Proof. by destruct fuel. Qed.

Lemma mine_block_sealed fuel d self mined :
  mine_block fuel d self = Ok mined → sealed d mined = true.
Proof.
  revert self. induction fuel as [|fuel IH]; intros self;
    rewrite mine_block_unfold; destruct (sealed d self) eqn:Hs;
    try discriminate; try (intros [= <-]; exact Hs).
  apply IH.
Qed.

Lemma mine_block_consistent fuel d self mined :
  hash self = calculate_hash self →
  mine_block fuel d self = Ok mined → hash mined = calculate_hash mined.
Proof.
  revert self. induction fuel as [|fuel IH]; intros self Hc;
    rewrite mine_block_unfold; destruct (sealed d self);
    try discriminate; try (by intros [= <-]).
  apply IH, mine_step_consistent.
Qed.

Lemma mine_block_fields fuel d self mined :
  mine_block fuel d self = Ok mined →
  same_pre_nonce_fields self mined ∧ nonce self ≤ nonce mined.
Proof.
  revert self. induction fuel as [|fuel IH]; intros self;
    rewrite mine_block_unfold; destruct (sealed d self);
    try discriminate;
    try (intros [= <-]; unfold same_pre_nonce_fields; split; [done | lia]).
  intros Hm. destruct (IH _ Hm) as [(? & ? & ? & ?) Hn].
  simpl in *. unfold same_pre_nonce_fields. split; [done | lia].
Qed.

(** The result does not depend on how much fuel was to spare. *)
Lemma mine_block_fuel_irrelevant fuel1 fuel2 d self m1 m2 :
  mine_block fuel1 d self = Ok m1 → mine_block fuel2 d self = Ok m2 →
  m1 = m2.
Proof.
  revert fuel2 self. induction fuel1 as [|fuel1 IH]; intros fuel2 self;
    rewrite (mine_block_unfold _ d self), (mine_block_unfold fuel2 d self);
    destruct (sealed d self); try congruence.
  destruct fuel2 as [|fuel2]; [discriminate | apply IH].
Qed.



Lemma str_take_replicate n c s :
  str_take n s = str_replicate n c → ∃ rest, s = str_replicate n c +:+ rest.
Proof.
  revert s. induction n as [|n IH]; intros s; simpl.
  - intros _. by exists s.
  - destruct s as [|c' r]; [discriminate |].
    intros [= -> Hr]. destruct (IH _ Hr) as [rest ->]. by exists rest.
Qed.

Lemma sealed_leading_zeros d self :
  sealed d self = true → ∃ rest, hash self = py_repeat "0" d +:+ rest.
Proof.
  unfold sealed, py_slice_to, py_repeat. intros Hs%bool_decide_eq_true.
  destruct (d <? 0) eqn:Hd.
  - apply Z.ltb_lt in Hd. rewrite Z2Nat.nonpos by lia.
    by exists (hash self).
  - by apply str_take_replicate.
Qed.

(** C4. When [mine_block] returns, the hash of the block begins with
    [difficulty] characters ['0'] and the fields before the nonce are those
    mining started from; if the block came in with the digest of its fields
    as its hash, as every block built by the constructor does, the hash it
    leaves with is the recomputed digest of its fields; and mining again
    from the freshly built block (nonce [0], the same index, timestamp,
    data and previous hash) returns the same nonce and the same hash. *)
Theorem mine_block_seals_deterministically (difficulty : Z) (self : Block)
    (fuel : nat) (mined : Block) :
  mine_block fuel difficulty self = Ok mined →
  (∃ rest, hash mined = py_repeat "0" difficulty +:+ rest)
  ∧ same_pre_nonce_fields self mined
  ∧ (hash self = calculate_hash self → hash mined = calculate_hash mined)
  ∧ (∀ i t d p fuel' mined',
       self = Block_init i t d p →
       mine_block fuel' difficulty (Block_init i t d p) = Ok mined' →
       nonce mined' = nonce mined ∧ hash mined' = hash mined).
Proof.
  intros Hm. split_and!.
  - eapply sealed_leading_zeros, mine_block_sealed, Hm.
  - eapply mine_block_fields, Hm.
  - intros Hc. eapply mine_block_consistent; eauto.
  - intros i t d p fuel' mined' -> Hm'.
    by rewrite (mine_block_fuel_irrelevant _ _ _ _ _ _ Hm Hm').
Qed.

Lemma mine_block_seals_deterministically_witness :
  mine_block 5 2 demo_genesis = Ok demo_genesis_mined
  ∧ nonce demo_genesis_mined = 3
  ∧ (∃ rest, hash demo_genesis_mined = py_repeat "0" 2 +:+ rest)
  ∧ hash demo_genesis_mined = calculate_hash demo_genesis_mined
  ∧ (∀ mined', mine_block 9 2 demo_genesis = Ok mined' →
       nonce mined' = 3 ∧ hash mined' = hash demo_genesis_mined).
Proof.
  assert (mine_block 5 2 demo_genesis = Ok demo_genesis_mined) as Hm
    by (vm_compute; reflexivity).
  destruct (mine_block_seals_deterministically 2 demo_genesis 5
              demo_genesis_mined Hm) as (Hz & _ & Hd & Hsame).
  split_and!; [exact Hm | reflexivity | exact Hz | exact (Hd eq_refl) |].
  intros mined' Hm'.
  exact (Hsame 0 "2024-01-15 10:30:45.000048" genesis_data "0" 9%nat mined'
           eq_refl Hm').
Defined.

(** ** The chain *)

Lemma get_latest_block_eq bc :
  get_latest_block bc =
    match last (chain bc) with
    | Some b => (Ok b, bc)
    | None => (Raise IndexError, bc)
    end.
Proof. unfold get_latest_block. py_unfold. by destruct (last (chain bc)). Qed.

Lemma add_block_eq fuel d now bc :
  add_block fuel d now bc =
    match last (chain bc) with
    | None => (Raise IndexError, bc)
    | Some latest =>
        match mine_block fuel (difficulty bc)
                (Block_init (Z.of_nat (length (chain bc))) now d (hash latest))
        with
        | Ok mined => (Ok mined, append mined bc)
        | Raise e => (Raise e, bc)
        | OutOfFuel => (OutOfFuel, bc)
        end
    end.
Proof.
  unfold add_block, get_latest_block. py_unfold.
  destruct (last (chain bc)) as [latest|]; [| done].
  by destruct (mine_block _ _ _).
Qed.

Lemma VotingBlockchain_init_eq fuel now :
  VotingBlockchain_init fuel now =
    match mine_block fuel 2 (Block_init 0 now genesis_data "0") with
    | Ok g => Ok (mkChain [g] 2)
    | Raise e => Raise e
    | OutOfFuel => OutOfFuel
    end.
Proof.
  unfold VotingBlockchain_init, create_genesis_block. py_unfold. simpl.
  by destruct (mine_block _ _ _).
Qed.

(** A call of [add_block] either appends the block it returns or leaves
    the chain as it was. *)
Lemma add_block_cases fuel d now bc r bc' :
  add_block fuel d now bc = (r, bc') →
  (∃ latest mined,
      last (chain bc) = Some latest
      ∧ mine_block fuel (difficulty bc)
          (Block_init (Z.of_nat (length (chain bc))) now d (hash latest))
        = Ok mined
      ∧ r = Ok mined ∧ bc' = append mined bc)
  ∨ ((∀ b, r ≠ Ok b) ∧ bc' = bc).
Proof.
  rewrite add_block_eq. destruct (last (chain bc)) as [latest|] eqn:Hl.
  - destruct (mine_block _ _ _) as [mined|e|] eqn:Hm; intros [= <- <-];
      [left; by exists latest, mined | by right ..].
  - intros [= <- <-]. by right.
Qed.

Lemma linked_snoc c latest b :
  last c = Some latest → linked c →
  previous_hash b = hash latest → index b = Z.of_nat (length c) →
  linked (c ++ [b]).
Proof.
  intros Hl Hc Hp Hi i. rewrite length_app. simpl. intros Hlt.
  destruct (decide (i < length c)%nat) as [Hin|Hout].
  - rewrite !lookup_total_app_l by lia. apply Hc. lia.
  - assert (i = length c) as -> by lia.
    rewrite lookup_total_app_r by lia. rewrite Nat.sub_diag. simpl.
    rewrite lookup_total_app_l by lia.
    rewrite last_lookup in Hl.
    replace (length c - 1)%nat with (pred (length c)) by lia.
    by rewrite (list_lookup_total_correct _ _ _ Hl).
Qed.

Lemma linked_singleton g : linked [g].
Proof. intros i. simpl. lia. Qed.

Lemma add_block_linked fuel d now bc :
  linked (chain bc) → linked (chain (add_block fuel d now bc).2).
Proof.
  intros Hc. destruct (add_block fuel d now bc) as [r bc'] eqn:Ha.
  apply add_block_cases in Ha as [(latest & mined & Hl & Hm & _ & ->)|[_ ->]];
    [| done].
  destruct (mine_block_fields _ _ _ _ Hm) as [(Hi & _ & _ & Hp) _].
  simpl in *. eapply linked_snoc; eauto.
Qed.

Lemma add_block_self_hashed fuel d now bc :
  self_hashed (chain bc) → self_hashed (chain (add_block fuel d now bc).2).
Proof.
  intros Hc. destruct (add_block fuel d now bc) as [r bc'] eqn:Ha.
  apply add_block_cases in Ha as [(latest & mined & Hl & Hm & _ & ->)|[_ ->]];
    [| done].
  apply Forall_app. split; [done |].
  apply Forall_singleton.
  eapply mine_block_consistent; [apply Block_init_consistent | exact Hm].
Qed.

Lemma chain_reachable_invariant bc :
  chain_reachable bc → linked (chain bc) ∧ self_hashed (chain bc).
Proof.
  induction 1 as [fuel now bc Hinit|fuel d now bc r bc' _ [IH1 IH2] Ha].
  - rewrite VotingBlockchain_init_eq in Hinit.
    destruct (mine_block _ _ _) as [g| |] eqn:Hm; try discriminate.
    injection Hinit as <-. split; [apply linked_singleton |].
    apply Forall_singleton.
    eapply mine_block_consistent; [apply Block_init_consistent | exact Hm].
  - replace bc' with (add_block fuel d now bc).2 by by rewrite Ha.
    split; [by apply add_block_linked | by apply add_block_self_hashed].
Qed.

(** What the validation loop decides. *)
Lemma is_chain_valid_loop_spec c range :
  is_chain_valid_loop c range = true ↔
  ∀ i, i ∈ range →
    hash (c !!! i) = calculate_hash (c !!! i)
    ∧ previous_hash (c !!! i) = hash (c !!! (i - 1)%nat).
Proof.
  induction range as [|i range IH]; simpl.
  - split; [intros _ i Hi; by apply elem_of_nil in Hi | done].
  - repeat case_bool_decide; simpl.
    + rewrite IH. split.
      * intros Hr j [->|Hj]%elem_of_cons; [done | by apply Hr].
      * intros Hr j Hj. apply Hr. by right.
    + split; [done |]. intros Hr. destruct (Hr i) as [_ ?]; [by left | done].
    + split; [done |]. intros Hr. destruct (Hr i) as [? _]; [by left | done].
    + split; [done |]. intros Hr. destruct (Hr i) as [? _]; [by left | done].
Qed.

Lemma is_chain_valid_spec bc :
  is_chain_valid bc = true ↔
  ∀ i : nat, (0 < i < length (chain bc))%nat →
    hash (chain bc !!! i) = calculate_hash (chain bc !!! i)
    ∧ previous_hash (chain bc !!! i) = hash (chain bc !!! (i - 1)%nat).
Proof.
  unfold is_chain_valid. rewrite is_chain_valid_loop_spec.
  split; intros Hv i Hi; apply Hv.
  - apply elem_of_seq. lia.
  - apply elem_of_seq in Hi. lia.
Qed.

(** C1. Every chain produced by [VotingBlockchain()] followed by calls of
    [add_block] passes [is_chain_valid]. *)
Theorem reachable_chain_is_valid (bc : VotingBlockchain) :
  chain_reachable bc → is_chain_valid bc = true.
Proof.
  intros [Hlink Hself]%chain_reachable_invariant.
  apply is_chain_valid_spec. intros i Hi. split; [| by apply Hlink].
  unfold self_hashed in Hself. rewrite Forall_lookup in Hself.
  apply (Hself i). apply list_lookup_lookup_total_lt. lia.
Qed.

Lemma demo_chain_0_reachable : chain_reachable (blockchain demo_state_0).
Proof. apply (reachable_new 8 demo_genesis_time). by vm_compute. Defined.

Lemma demo_chain_1_reachable : chain_reachable (blockchain demo_state_1).
Proof.
  eapply (reachable_add_block 8
            (make_vote_data (sha256_hex "voterA") (PStr "e1")
               (sha256_hex "cand1") "2024-01-15 10:31:00.000001"
               "00112233445566778899aabbccddeeff")
            "2024-01-15 10:31:00.000092" _ (Ok (chain (blockchain demo_state_1) !!! 1%nat)));
    [exact demo_chain_0_reachable | by vm_compute].
Defined.

Lemma reachable_chain_is_valid_witness :
  chain_reachable (blockchain demo_state_1)
  ∧ length (chain (blockchain demo_state_1)) = 2%nat
  ∧ is_chain_valid (blockchain demo_state_1) = true.
Proof.
  split; [exact demo_chain_1_reachable |]. split; [reflexivity |].
  exact (reachable_chain_is_valid _ demo_chain_1_reachable).
Defined.

(** ** The service *)

Lemma make_vote_data_type vh e ch now token :
  get "type" (make_vote_data vh e ch now token) = PStr "vote".
Proof. reflexivity. Qed.

Lemma make_vote_data_voter_hash vh e ch now token :
  get "voter_hash" (make_vote_data vh e ch now token) = PStr vh.
Proof. reflexivity. Qed.

Lemma make_vote_data_election_id vh e ch now token :
  get "election_id" (make_vote_data vh e ch now token) = e.
Proof. reflexivity. Qed.

Lemma make_vote_data_candidate_hash vh e ch now token :
  get "candidate_hash" (make_vote_data vh e ch now token) = PStr ch.
Proof. reflexivity. Qed.

Lemma make_vote_data_transaction_id vh e ch now token :
  get "transaction_id" (make_vote_data vh e ch now token) = PStr token.
Proof. reflexivity. Qed.

Lemma cast_vote_to_blockchain_eq fuel v e c now_vote token now_block st :
  cast_vote_to_blockchain fuel v e c now_vote token now_block st =
    match py_encode_hex v with
    | Ok voter_hash =>
        let vote_data :=
          make_vote_data voter_hash e (sha256_hex (py_str c)) now_vote token in
        match add_block fuel vote_data now_block (blockchain st) with
        | (Ok block, bc) =>
            (Ok (mkReceipt true (hash block) (get "transaction_id" vote_data)
                   (index block) (timestamp block)), mkService bc)
        | (Raise err, bc) => (Raise err, mkService bc)
        | (OutOfFuel, bc) => (OutOfFuel, mkService bc)
        end
    | Raise err => (Raise err, st)
    | OutOfFuel => (OutOfFuel, st)
    end.
Proof.
  unfold cast_vote_to_blockchain. py_unfold.
  destruct (py_encode_hex v) as [vh|err|]; [| done ..]. simpl.
  by destruct (add_block _ _ _ _) as [[block|err|] bc].
Qed.

(** A call of [cast_vote_to_blockchain] returns a receipt after appending
    the one block the receipt describes, or does not return one and leaves
    the service as it was. *)
Lemma cast_vote_cases fuel v e c now_vote token now_block st r st' :
  cast_vote_to_blockchain fuel v e c now_vote token now_block st = (r, st') →
  (∃ voter block,
      v = PStr voter
      ∧ add_block fuel
          (make_vote_data (sha256_hex voter) e (sha256_hex (py_str c))
             now_vote token)
          now_block (blockchain st)
        = (Ok block, append block (blockchain st))
      ∧ r = Ok (mkReceipt true (hash block) (PStr token) (index block)
                  (timestamp block))
      ∧ st' = mkService (append block (blockchain st)))
  ∨ ((∀ receipt, r ≠ Ok receipt) ∧ st' = st).
Proof.
  rewrite cast_vote_to_blockchain_eq. destruct st as [bc]. simpl.
  destruct v as [|z|s]; simpl; try (intros [= <- <-]; by right).
  destruct (add_block _ _ _ _) as [r0 bc'] eqn:Ha.
  destruct (add_block_cases _ _ _ _ _ _ Ha)
    as [(latest & mined & Hl & Hm & -> & ->)|[Hr ->]].
  - intros [= <- <-]. left. exists s, mined.
    by rewrite make_vote_data_transaction_id.
  - destruct r0 as [b|err|]; [by destruct (Hr b) | |];
      intros [= <- <-]; by right.
Qed.

(** Every operation other than casting a vote leaves the service as it
    is. *)
Lemma serve_read_only fuel req st :
  (∀ v e c now_vote token now_block,
      req ≠ CastVote v e c now_vote token now_block) →
  (serve fuel req st).2 = st.
Proof.
  intros Hreq. destruct req as [v e c nv tk nb|h|e|v e| |]; simpl;
    try done.
  - by destruct (Hreq v e c nv tk nb).
  - py_unfold. unfold id. by destruct (has_voter_voted v e st).
  - py_unfold. unfold id. by destruct (get_blockchain_stats st).
Qed.

Lemma serve_cast_vote fuel v e c nv tk nb st :
  (serve fuel (CastVote v e c nv tk nb) st).2 =
  (cast_vote_to_blockchain fuel v e c nv tk nb st).2.
Proof.
  simpl. py_unfold.
  by destruct (cast_vote_to_blockchain fuel v e c nv tk nb st) as [[?|?|] ?].
Qed.

(** The chain of a service changes only by calls of [add_block]. *)
Lemma serve_chain fuel req st :
  blockchain (serve fuel req st).2 = blockchain st
  ∨ ∃ d now, blockchain (serve fuel req st).2
             = (add_block fuel d now (blockchain st)).2.
Proof.
  destruct req as [v e c nv tk nb|h|e|v e| |];
    try (left; by rewrite serve_read_only).
  rewrite serve_cast_vote.
  destruct (cast_vote_to_blockchain _ _ _ _ _ _ _ _) as [r st'] eqn:Hc.
  apply cast_vote_cases in Hc as [(vh & block & _ & Ha & _ & ->)|[_ ->]];
    [| by left].
  right. eexists _, _. by rewrite Ha.
Qed.

Lemma service_reachable_chain st :
  service_reachable st → chain_reachable (blockchain st).
Proof.
  induction 1 as [fuel now st Hinit|fuel req st r st' _ IH Hs].
  - unfold BlockchainService_init in Hinit.
    destruct (VotingBlockchain_init fuel now) as [bc| |] eqn:Hbc;
      try discriminate.
    injection Hinit as <-. by eapply reachable_new.
  - replace st' with (serve fuel req st).2 by by rewrite Hs.
    destruct (serve_chain fuel req st) as [->|(d & now & ->)]; [done |].
    destruct (add_block fuel d now (blockchain st)) as [r0 bc'] eqn:Ha.
    by eapply reachable_add_block.
Qed.

Lemma demo_service_0_reachable : service_reachable demo_state_0.
Proof. apply (service_new 8 demo_genesis_time). by vm_compute. Defined.

Lemma demo_service_1_reachable : service_reachable demo_state_1.
Proof.
  eapply (service_step 8 demo_vote_A);
    [exact demo_service_0_reachable | by vm_compute].
Defined.

Lemma demo_service_2_reachable : service_reachable demo_state_2.
Proof.
  eapply (service_step 8 demo_vote_B);
    [exact demo_service_1_reachable | by vm_compute].
Defined.

(** C2. The link and index invariant holds in every chain reachable from
    construction by calls of [add_block], and every operation of the
    service takes a state with the invariant to a state with the
    invariant. *)
Theorem chain_links_invariant :
  (∀ bc, chain_reachable bc → linked (chain bc))
  ∧ (∀ fuel req st,
       linked (chain (blockchain st)) →
       linked (chain (blockchain (serve fuel req st).2))).
Proof.
  split.
  - intros bc Hr. by apply chain_reachable_invariant.
  - intros fuel req st Hl.
    destruct (serve_chain fuel req st) as [->|(d & now & ->)]; [done |].
    by apply add_block_linked.
Qed.

Lemma chain_links_invariant_witness :
  chain_reachable (blockchain demo_state_2)
  ∧ (let c := chain (blockchain demo_state_2) in
     length c = 3%nat
     ∧ previous_hash (c !!! 2%nat) = hash (c !!! 1%nat)
     ∧ index (c !!! 2%nat) = 2
     ∧ previous_hash (c !!! 1%nat) = hash (c !!! 0%nat)
     ∧ index (c !!! 1%nat) = 1).
Proof.
  assert (chain_reachable (blockchain demo_state_2)) as Hr.
  { eapply (reachable_add_block 8
              (make_vote_data (sha256_hex "voterB") (PStr "e1")
                 (sha256_hex "cand2") "2024-01-15 10:32:00.000001"
                 "ffeeddccbbaa99887766554433221100")
              "2024-01-15 10:32:00.000065" _
              (Ok (chain (blockchain demo_state_2) !!! 2%nat)));
      [exact demo_chain_1_reachable | by vm_compute]. }
  split; [exact Hr |].
  destruct chain_links_invariant as [Hreach _].
  pose proof (Hreach _ Hr) as Hl.
  split; [reflexivity |].
  destruct (Hl 2%nat) as [H2p H2i]; [simpl; lia |].
  destruct (Hl 1%nat) as [H1p H1i]; [simpl; lia |].
  done.
Defined.

(** C9. A successful [cast_vote_to_blockchain] appends exactly one block:
    the chain is the old chain followed by the new block, its length grows
    by one, and every block stored before is found unchanged at its
    index. *)
Theorem cast_vote_appends_one_block fuel v e c now_vote token now_block
    (st st' : BlockchainService) (receipt : CastReceipt) :
  cast_vote_to_blockchain fuel v e c now_vote token now_block st
    = (Ok receipt, st') →
  (∃ block, chain (blockchain st') = chain (blockchain st) ++ [block]
            ∧ hash block = block_hash receipt
            ∧ index block = block_index receipt)
  ∧ length (chain (blockchain st')) = S (length (chain (blockchain st)))
  ∧ (∀ (i : nat) b, chain (blockchain st) !! i = Some b →
       chain (blockchain st') !! i = Some b)
  ∧ difficulty (blockchain st') = difficulty (blockchain st).
Proof.
  intros Hc.
  apply cast_vote_cases in Hc as [(vh & block & _ & _ & [= ->] & ->)|[Hr _]];
    [| by destruct (Hr receipt)].
  simpl. split_and!.
  - by exists block.
  - rewrite length_app. simpl. lia.
  - intros i b Hb. by apply lookup_app_l_Some.
  - done.
Qed.

Lemma cast_vote_appends_one_block_witness :
  ∃ receipt,
    cast_vote_to_blockchain 8 (PStr "voterA") (PStr "e1") (PStr "cand1")
      "2024-01-15 10:31:00.000001" "00112233445566778899aabbccddeeff"
      "2024-01-15 10:31:00.000092" demo_state_0 = (Ok receipt, demo_state_1)
    ∧ length (chain (blockchain demo_state_1))
      = S (length (chain (blockchain demo_state_0)))
    ∧ (∀ (i : nat) b, chain (blockchain demo_state_0) !! i = Some b →
         chain (blockchain demo_state_1) !! i = Some b).
Proof.
  eexists. split; [by vm_compute |].
  edestruct (cast_vote_appends_one_block 8 (PStr "voterA") (PStr "e1")
               (PStr "cand1") "2024-01-15 10:31:00.000001"
               "00112233445566778899aabbccddeeff" "2024-01-15 10:31:00.000092"
               demo_state_0 demo_state_1) as (_ & Hlen & Hold & _);
    [by vm_compute | by split].
Defined.

(** ** Digests *)

Lemma hex_digit_lower n : 0 ≤ n < 16 → is_lower_hex (Sha256.hex_digit n) = true.
Proof.
  intros Hn.
  assert (n = 0 ∨ n = 1 ∨ n = 2 ∨ n = 3 ∨ n = 4 ∨ n = 5 ∨ n = 6 ∨ n = 7
          ∨ n = 8 ∨ n = 9 ∨ n = 10 ∨ n = 11 ∨ n = 12 ∨ n = 13 ∨ n = 14
          ∨ n = 15) as Hcases by lia.
  destruct_or!; subst n; reflexivity.
Qed.

Lemma hex_of_length d x acc :
  String.length (Sha256.hex_of d x acc) = (d + String.length acc)%nat.
Proof.
  revert x acc. induction d as [|d IH]; intros x acc; simpl; [done |].
  rewrite IH. simpl. lia.
Qed.

Lemma hex_of_lower d x acc :
  lower_hex acc = true → lower_hex (Sha256.hex_of d x acc) = true.
Proof.
  revert x acc. induction d as [|d IH]; intros x acc Hacc; simpl; [done |].
  apply IH. simpl. rewrite Hacc, hex_digit_lower; [done |].
  change 15 with (Z.ones 4). rewrite Z.land_ones by lia.
  apply Z.mod_pos_bound. lia.
Qed.

(** A digest is sixty-four lowercase hexadecimal characters. *)
Lemma sha256_hex_shape s :
  String.length (sha256_hex s) = 64%nat ∧ lower_hex (sha256_hex s) = true.
Proof.
  unfold sha256_hex, Sha256.hexdigest, Sha256.digest_words.
  cbn [foldr]. split.
  - by rewrite !hex_of_length.
  - by repeat apply hex_of_lower.
Qed.

Lemma sha256_hex_truthy s : truthy (PStr (sha256_hex s)) = true.
Proof.
  unfold truthy. rewrite bool_decide_eq_false_2; [done |].
  intros He. pose proof (sha256_hex_shape s) as [Hlen _].
  by rewrite He in Hlen.
Qed.

(** ** Casting a vote *)






(** ** Queries *)

Lemma py_eq_true a b : py_eq a b = true ↔ a = b.
Proof. unfold py_eq. apply bool_decide_eq_true. Qed.

(** The loop of [get_blocks_by_election] keeps, in order, the vote blocks
    of the election. *)
Lemma get_blocks_by_election_filter e bc :
  get_blocks_by_election e bc = filter (vote_block_of e) (chain bc).
Proof.
  unfold get_blocks_by_election.
  enough (∀ l acc,
            foldl (λ blocks block,
                     if py_eq (get "type" (data block)) (PStr "vote")
                        && py_eq (get "election_id" (data block)) e
                     then blocks ++ [block] else blocks) acc l
            = acc ++ filter (vote_block_of e) l) as Hgen by apply Hgen.
  induction l as [|b l IH]; intros acc; simpl.
  - by rewrite app_nil_r.
  - rewrite IH, filter_cons. destruct (decide (vote_block_of e b)) as [Hv|Hv].
    + destruct Hv as [Ht He].
      rewrite (proj2 (py_eq_true _ _) Ht), (proj2 (py_eq_true _ _) He).
      simpl. by rewrite <- app_assoc.
    + destruct (py_eq (get "type" (data b)) (PStr "vote")) eqn:Ht;
        destruct (py_eq (get "election_id" (data b)) e) eqn:He; simpl;
        try done.
      destruct Hv. split; by apply py_eq_true.
Qed.

Lemma get_block_by_hash_loop_None c h :
  get_block_by_hash_loop c h = None ↔ ∀ b, b ∈ c → PStr (hash b) ≠ h.
Proof.
  induction c as [|b c IH]; simpl.
  - split; [intros _ b Hb; by apply elem_of_nil in Hb | done].
  - destruct (py_eq (PStr (hash b)) h) eqn:Hb.
    + apply py_eq_true in Hb. split; [done |].
      intros Hc. destruct (Hc b); [by left | done].
    + rewrite IH. split.
      * intros Hc b' [->|Hin]%elem_of_cons; [| by apply Hc].
        intros Heq. apply py_eq_true in Heq. congruence.
      * intros Hc b' Hin. apply Hc. by right.
Qed.

(** The block found is the first one with the hash. *)
Lemma get_block_by_hash_loop_Some c h found :
  get_block_by_hash_loop c h = Some found →
  ∃ i : nat, c !! i = Some found ∧ PStr (hash found) = h
    ∧ ∀ (j : nat) b, (j < i)%nat → c !! j = Some b → PStr (hash b) ≠ h.
Proof.
  induction c as [|b c IH]; simpl; [done |].
  destruct (py_eq (PStr (hash b)) h) eqn:Hb.
  - intros [= <-]. apply py_eq_true in Hb. exists 0%nat.
    split_and!; [done | done |]. intros j b' Hj. lia.
  - intros (i & Hi & Hh & Hfirst)%IH. exists (S i).
    split_and!; [done | done |].
    intros [|j] b' Hj; simpl.
    + intros [= <-] Heq. apply py_eq_true in Heq. congruence.
    + apply Hfirst. lia.
Qed.

(** C8. [verify_vote] on a hash no block of the chain has returns the
    not-found outcome; on a hash some block has it returns the found
    outcome with the validity of the chain and the index, timestamp and
    data of the first block with that hash.  It is a total function: no
    call raises. *)
Theorem verify_vote_outcomes (block_hash : pyval) (st : BlockchainService) :
  ((∀ b, b ∈ chain (blockchain st) → PStr (hash b) ≠ block_hash) →
     verify_vote block_hash st = NotVerified "Vote not found on blockchain")
  ∧ ((∃ b, b ∈ chain (blockchain st) ∧ PStr (hash b) = block_hash) →
     ∃ (i : nat) found,
       chain (blockchain st) !! i = Some found
       ∧ PStr (hash found) = block_hash
       ∧ (∀ (j : nat) b, (j < i)%nat →
            chain (blockchain st) !! j = Some b → PStr (hash b) ≠ block_hash)
       ∧ verify_vote block_hash st
         = Verified (is_chain_valid (blockchain st)) (index found)
             (timestamp found) (data found) "Vote verified on blockchain").
Proof.
  unfold verify_vote, get_block_by_hash. split.
  - intros Habsent%get_block_by_hash_loop_None. by rewrite Habsent.
  - intros (b & Hin & Hb).
    destruct (get_block_by_hash_loop (chain (blockchain st)) block_hash)
      as [found|] eqn:Hf.
    + destruct (get_block_by_hash_loop_Some _ _ _ Hf) as (i & Hi & Hh & Hfirst).
      by exists i, found.
    + rewrite get_block_by_hash_loop_None in Hf. by destruct (Hf b Hin).
Qed.

Lemma verify_vote_outcomes_witness :
  (∀ b, b ∈ chain (blockchain demo_state_1) → PStr (hash b) ≠ PStr "deadbeef")
  ∧ verify_vote (PStr "deadbeef") demo_state_1
    = NotVerified "Vote not found on blockchain"
  ∧ (let h :=
       PStr "00541bf88bd8be5f3f4811c2b1e7f53bdfcd94c7eec33d0dcdbc336f5ec18791"
     in
     (∃ b, b ∈ chain (blockchain demo_state_1) ∧ PStr (hash b) = h)
     ∧ ∃ found, chain (blockchain demo_state_1) !! 1%nat = Some found
         ∧ verify_vote h demo_state_1
           = Verified true 1 "2024-01-15 10:31:00.000092" (data found)
               "Vote verified on blockchain").
Proof.
  assert (∀ b, b ∈ chain (blockchain demo_state_1) →
               PStr (hash b) ≠ PStr "deadbeef") as Habsent.
  { intros b Hb. apply get_block_by_hash_loop_None with
      (c := chain (blockchain demo_state_1)); [reflexivity | exact Hb]. }
  destruct (verify_vote_outcomes (PStr "deadbeef") demo_state_1)
    as [Hnot _].
  split; [exact Habsent |]. split; [exact (Hnot Habsent) |].
  intros h.
  assert (∃ b, b ∈ chain (blockchain demo_state_1) ∧ PStr (hash b) = h)
    as Hpresent.
  { exists (chain (blockchain demo_state_1) !!! 1%nat).
    split; [| reflexivity]. right. left. }
  split; [exact Hpresent |].
  destruct (verify_vote_outcomes h demo_state_1) as [_ Hfound].
  destruct (Hfound Hpresent) as (i & found & Hi & Hh & Hfirst & Hv).
  exists (chain (blockchain demo_state_1) !!! 1%nat).
  split; [reflexivity |]. by vm_compute.
Defined.

Lemma has_voter_voted_loop_true blocks voter_hash :
  has_voter_voted_loop blocks voter_hash = true ↔
  ∃ b, b ∈ blocks ∧ get "voter_hash" (data b) = PStr voter_hash.
Proof.
  induction blocks as [|b blocks IH]; simpl.
  - split; [done | intros (b & Hb & _); by apply elem_of_nil in Hb].
  - destruct (py_eq (get "voter_hash" (data b)) (PStr voter_hash)) eqn:Hb.
    + apply py_eq_true in Hb. split; [| done].
      intros _. exists b. split; [by left | done].
    + rewrite IH. split.
      * intros (b' & Hin & Hh). exists b'. split; [by right | done].
      * intros (b' & [->|Hin]%elem_of_cons & Hh).
        -- apply py_eq_true in Hh. congruence.
        -- by exists b'.
Qed.

(** C6. [has_voter_voted] answers true exactly when the chain holds a
    vote block of the election whose [voter_hash] is the SHA-256 digest of
    the voter identifier. *)
Theorem has_voter_voted_iff (v : string) (e : pyval)
    (st : BlockchainService) :
  ∃ answer,
    has_voter_voted (PStr v) e st = Ok answer
    ∧ (answer = true ↔
       ∃ b, b ∈ chain (blockchain st)
            ∧ get "type" (data b) = PStr "vote"
            ∧ get "election_id" (data b) = e
            ∧ get "voter_hash" (data b) = PStr (sha256_hex v)).
Proof.
  eexists. split; [reflexivity |].
  rewrite has_voter_voted_loop_true, get_blocks_by_election_filter.
  split.
  - intros (b & [[Ht He] Hin]%list_elem_of_filter & Hh). by exists b.
  - intros (b & Hin & Ht & He & Hh). exists b. split; [| done].
    apply list_elem_of_filter. by split.
Qed.

(** ** Tally *)

Lemma sum_counts_insert_fresh (m : gmap pyval Z) k n :
  m !! k = None → sum_counts (<[k := n]> m) = n + sum_counts m.
Proof.
  intros Hk. unfold sum_counts.
  rewrite map_fold_insert_L; [done | intros; lia | done].
Qed.

Lemma sum_counts_increment (m : gmap pyval Z) k :
  sum_counts (<[k := default 0 (m !! k) + 1]> m) = sum_counts m + 1.
Proof.
  destruct (m !! k) as [n|] eqn:Hk; simpl.
  - rewrite <- (insert_delete_eq m k (n + 1)).
    rewrite sum_counts_insert_fresh by apply lookup_delete_eq.
    rewrite <- (insert_id m k n Hk) at 2.
    rewrite <- (insert_delete_eq m k n).
    rewrite sum_counts_insert_fresh by apply lookup_delete_eq. lia.
  - rewrite sum_counts_insert_fresh by done. lia.
Qed.

Lemma filter_all {A} (Q : A → Prop) `{∀ x, Decision (Q x)} (l : list A) :
  Forall Q l → filter Q l = l.
Proof.
  induction 1 as [|x l Hx _ IH]; [done |].
  by rewrite filter_cons_True, IH.
Qed.

(** Every block with a candidate hash that counts as true adds one to the
    distribution. *)
Lemma count_votes_sum blocks :
  sum_counts (count_votes blocks)
  = Z.of_nat (length (filter (λ b, truthy (get "candidate_hash" (data b)) = true)
                        blocks)).
Proof.
  unfold count_votes.
  enough (∀ l (acc : gmap pyval Z),
            sum_counts
              (foldl (λ (vote_counts : gmap pyval Z) block,
                        let candidate_hash := get "candidate_hash" (data block) in
                        if truthy candidate_hash
                        then <[candidate_hash :=
                                 default 0 (vote_counts !! candidate_hash) + 1]>
                               vote_counts
                        else vote_counts) acc l)
            = sum_counts acc
              + Z.of_nat (length (filter
                  (λ b, truthy (get "candidate_hash" (data b)) = true) l)))
    as Hgen.
  { rewrite Hgen. unfold sum_counts at 1. by rewrite map_fold_empty. }
  induction l as [|b l IH]; intros acc; simpl; [lia |].
  rewrite IH, filter_cons.
  destruct (truthy (get "candidate_hash" (data b))) eqn:Ht.
  - rewrite decide_True by done. rewrite sum_counts_increment. simpl. lia.
  - rewrite decide_False by done. done.
Qed.

Lemma genesis_data_type : get "type" genesis_data = PStr "genesis".
Proof. reflexivity. Qed.

Lemma service_reachable_votes st :
  service_reachable st → votes_well_formed (chain (blockchain st)).
Proof.
  induction 1 as [fuel now st Hinit|fuel req st r st' _ IH Hs].
  - unfold BlockchainService_init in Hinit.
    rewrite VotingBlockchain_init_eq in Hinit.
    destruct (mine_block _ _ _) as [g| |] eqn:Hm; try discriminate.
    injection Hinit as <-. apply Forall_singleton.
    destruct (mine_block_fields _ _ _ _ Hm) as [(_ & _ & Hd & _) _].
    simpl in Hd. rewrite <- Hd, genesis_data_type. discriminate.
  - replace st' with (serve fuel req st).2 by by rewrite Hs.
    destruct req as [v e c nv tk nb|h|e|v e| |];
      try (by rewrite serve_read_only).
    rewrite serve_cast_vote.
    destruct (cast_vote_to_blockchain _ _ _ _ _ _ _ _) as [r0 st0] eqn:Hc.
    apply cast_vote_cases in Hc as [(voter & block & _ & Ha & _ & ->)|[_ ->]];
      [| done].
    apply add_block_cases in Ha
      as [(latest & mined & _ & Hm & [= <-] & _)|[Hr _]];
      [| by edestruct Hr].
    simpl. apply Forall_app. split; [done |]. apply Forall_singleton.
    destruct (mine_block_fields _ _ _ _ Hm) as [(_ & _ & Hd & _) _].
    simpl in Hd. intros _.
    rewrite <- Hd, make_vote_data_candidate_hash. apply sha256_hex_truthy.
Qed.

Lemma length_filter_all {A} (Q : A → Prop) `{∀ x, Decision (Q x)}
    (l : list A) :
  length (filter Q l) = length l ↔ Forall Q l.
Proof.
  induction l as [|x l IH]; [done |].
  rewrite filter_cons, Forall_cons, <- IH.
  destruct (decide (Q x)) as [Hx|Hx]; simpl.
  - split; [intros [= ?]; by split | intros [_ ->]; done].
  - pose proof (length_filter Q l). split; [lia | by intros [? _]].
Qed.

(** C7, as the code has it. [total_votes] of [get_election_results] is the
    number of vote blocks of the election in the chain, in any state.  The
    counts of [vote_distribution] add up to the number of those blocks
    whose [candidate_hash] counts as true in a condition: the others are
    skipped by the guard of the loop.  So the sum is at most [total_votes],
    and equal to it exactly when every vote block of the election has such
    a [candidate_hash]; that is the case in every state built by
    [BlockchainService()] and its operations. *)
Theorem election_results_totals (e : pyval) (st : BlockchainService) :
  let results := get_election_results e st in
  let votes := filter (vote_block_of e) (chain (blockchain st)) in
  let counted :=
    filter (λ b, truthy (get "candidate_hash" (data b)) = true) votes in
  total_votes results = Z.of_nat (length votes)
  ∧ sum_counts (vote_distribution results) = Z.of_nat (length counted)
  ∧ sum_counts (vote_distribution results) ≤ total_votes results
  ∧ (sum_counts (vote_distribution results) = total_votes results
     ↔ ∀ b, b ∈ votes → truthy (get "candidate_hash" (data b)) = true)
  ∧ (service_reachable st →
     sum_counts (vote_distribution results) = total_votes results).
Proof.
  intros results votes counted.
  assert (total_votes results = Z.of_nat (length votes)) as Htotal.
  { subst results votes. simpl. by rewrite get_blocks_by_election_filter. }
  assert (sum_counts (vote_distribution results) = Z.of_nat (length counted))
    as Hsum.
  { subst results counted votes. simpl.
    by rewrite count_votes_sum, get_blocks_by_election_filter. }
  assert (length counted = length votes
          ↔ ∀ b, b ∈ votes → truthy (get "candidate_hash" (data b)) = true)
    as Hall.
  { subst counted. by rewrite length_filter_all, Forall_forall. }
  assert (length counted ≤ length votes)%nat as Hle
    by (subst counted; apply length_filter).
  rewrite Htotal, Hsum. split_and!; [done | done | lia | |].
  - rewrite <- Hall. split; [by intros ?%Nat2Z.inj | by intros ->].
  - intros Hwf%service_reachable_votes. f_equal. apply Hall.
    intros b [[Ht _] Hin]%list_elem_of_filter.
    unfold votes_well_formed in Hwf. rewrite Forall_forall in Hwf.
    by apply Hwf.
Qed.

Lemma election_results_totals_witness :
  service_reachable demo_state_2
  ∧ (let results := get_election_results (PStr "e1") demo_state_2 in
     total_votes results = 2
     ∧ sum_counts (vote_distribution results) = total_votes results
     ∧ vote_distribution results !! PStr (sha256_hex "cand1") = Some 1
     ∧ vote_distribution results !! PStr (sha256_hex "cand2") = Some 1).
Proof.
  split; [exact demo_service_2_reachable |].
  destruct (election_results_totals (PStr "e1") demo_state_2)
    as (_ & _ & _ & _ & Hsum).
  split; [vm_compute; reflexivity |].
  split; [exact (Hsum demo_service_2_reachable) |].
  split; vm_compute; reflexivity.
Defined.

(** C7, as the claim states it, fails: a chain built by
    [VotingBlockchain()] and one call of the public [add_block], with a
    vote record that names the election and no candidate, has one vote
    block of the election, and the counts of the distribution add up to
    zero. *)
Lemma election_results_sum_below_total :
  let results := get_election_results (PStr "e1") (mkService demo_bare_chain) in
  chain_reachable demo_bare_chain
  ∧ length (filter (vote_block_of (PStr "e1")) (chain demo_bare_chain)) = 1%nat
  ∧ total_votes results = 1
  ∧ vote_distribution results = ∅
  ∧ sum_counts (vote_distribution results) = 0
  ∧ sum_counts (vote_distribution results) ≠ total_votes results.
Proof.
  intros results.
  assert (chain_reachable demo_bare_chain) as Hreach.
  { eapply (reachable_add_block 8 demo_bare_vote demo_bare_time
              (blockchain demo_state_0)
              (add_block 8 demo_bare_vote demo_bare_time
                 (blockchain demo_state_0)).1);
      [exact demo_chain_0_reachable | vm_compute; reflexivity]. }
  assert (total_votes results = 1) as Htotal by (vm_compute; reflexivity).
  assert (vote_distribution results = ∅) as Hdist
    by (vm_compute; reflexivity).
  assert (sum_counts (vote_distribution results) = 0) as Hsum
    by (rewrite Hdist; reflexivity).
  split_and!; [exact Hreach | vm_compute; reflexivity | exact Htotal
              | exact Hdist | exact Hsum |].
  rewrite Hsum, Htotal. discriminate.
Qed.


(** ** The hash rule *)

Lemma string_app_assoc (a b c : string) : (a +:+ b) +:+ c = a +:+ b +:+ c.
Proof.
  induction a as [|x a IH]; [done |].
  change (String x ((a +:+ b) +:+ c) = String x (a +:+ b +:+ c)).
  by f_equal.
Qed.

Global Instance key_le_total : Total Json.key_le.
Proof. intros a b. apply (total String.le). Qed.

Lemma dumps_obj items :
  Json.dumps (Json.JObj items)
  = "{" +:+ Json.join ", "
              (Json.render_item
                 <$> Json.sort_items (prod_map id Json.dumps <$> items))
        +:+ "}".
Proof.
  cbn [Json.dumps].
  match goal with
  | |- context [Json.sort_items ?l] =>
      assert (l = prod_map id Json.dumps <$> items) as ->; [| done]
  end.
  induction items as [|[k v] items IH]; [done |].
  cbn [fmap list_fmap prod_map fst snd id]. f_equal. exact IH.
Qed.

(** The items of a serialized object come ordered by key. *)
Lemma sort_items_sorted items :
  Sorted Json.key_le (Json.sort_items items) ∧ Json.sort_items items ≡ₚ items.
Proof.
  split; [apply Sorted_merge_sort, _ | apply merge_sort_Permutation].
Qed.

Lemma sort_block_items (a b c d e : string) :
  Json.sort_items [("index", a); ("timestamp", b); ("data", c);
                   ("previous_hash", d); ("nonce", e)]
  = [("data", c); ("index", a); ("nonce", e); ("previous_hash", d);
     ("timestamp", b)].
Proof. by vm_compute. Qed.

Lemma block_json_canonical b :
  Json.dumps (block_json b) = canonical_json b.
Proof.
  unfold block_json, canonical_json. rewrite dumps_obj.
  cbn [fmap list_fmap prod_map fst snd id].
  rewrite sort_block_items.
  cbn [fmap list_fmap Json.join Json.render_item fst snd Json.dumps].
  by rewrite !string_app_assoc.
Qed.

Lemma of_dict_sorted (d : dict) :
  ∃ items,
    Json.dumps (Json.of_dict d)
    = "{" +:+ Json.join ", " (Json.render_item <$> items) +:+ "}"
    ∧ Sorted Json.key_le items
    ∧ items ≡ₚ prod_map id Json.dumps
                 <$> (prod_map id Json.of_pyval <$> map_to_list d).
Proof.
  unfold Json.of_dict. rewrite dumps_obj.
  eexists. split; [reflexivity |]. apply sort_items_sorted.
Qed.

(** C3. In a chain built by [VotingBlockchain()] and [add_block] every
    block's stored hash is what [calculate_hash] recomputes from the stored
    fields; that value is the SHA-256 digest, as sixty-four lowercase
    hexadecimal characters, of the canonical JSON text of the five fields,
    whose keys, and those of the data object inside it, come in
    lexicographic order. *)
Theorem stored_hash_is_canonical_digest (bc : VotingBlockchain) (b : Block) :
  chain_reachable bc → b ∈ chain bc →
  hash b = calculate_hash b
  ∧ calculate_hash b = sha256_hex (canonical_json b)
  ∧ (∃ items,
       Json.dumps (Json.of_dict (data b))
       = "{" +:+ Json.join ", " (Json.render_item <$> items) +:+ "}"
       ∧ Sorted Json.key_le items
       ∧ items ≡ₚ prod_map id Json.dumps
                    <$> (prod_map id Json.of_pyval <$> map_to_list (data b)))
  ∧ String.length (hash b) = 64%nat
  ∧ lower_hex (hash b) = true.
Proof.
  intros [_ Hself]%chain_reachable_invariant Hin.
  unfold self_hashed in Hself. rewrite Forall_forall in Hself.
  pose proof (Hself b Hin) as Hb.
  split_and!.
  - exact Hb.
  - unfold calculate_hash. by rewrite block_json_canonical.
  - apply of_dict_sorted.
  - rewrite Hb. apply sha256_hex_shape.
  - rewrite Hb. apply sha256_hex_shape.
Qed.

Lemma stored_hash_is_canonical_digest_witness :
  let b := chain (blockchain demo_state_1) !!! 1%nat in
  chain_reachable (blockchain demo_state_1)
  ∧ b ∈ chain (blockchain demo_state_1)
  ∧ hash b = calculate_hash b
  ∧ hash b = sha256_hex (canonical_json b)
  ∧ hash b = "00541bf88bd8be5f3f4811c2b1e7f53bdfcd94c7eec33d0dcdbc336f5ec18791".
Proof.
  intros b.
  assert (b ∈ chain (blockchain demo_state_1)) as Hin by (right; left).
  destruct (stored_hash_is_canonical_digest _ b demo_chain_1_reachable Hin)
    as (Hb & Hc & _).
  split_and!; [exact demo_chain_1_reachable | exact Hin | exact Hb | | ].
  - by rewrite Hb.
  - reflexivity.
Defined.

(** ** What validation does not look at *)

Lemma is_chain_valid_genesis_hash_only g g' rest d :
  hash g = hash g' →
  is_chain_valid (mkChain (g :: rest) d) = is_chain_valid (mkChain (g' :: rest) d).
Proof.
  intros Hg. apply eq_true_iff_eq. rewrite !is_chain_valid_spec. simpl.
  assert (∀ h h' : Block, hash h = hash h' →
            (∀ i : nat, (0 < i < S (length rest))%nat →
               hash ((h :: rest) !!! i) = calculate_hash ((h :: rest) !!! i)
               ∧ previous_hash ((h :: rest) !!! i)
                 = hash ((h :: rest) !!! (i - 1)%nat)) →
            ∀ i : nat, (0 < i < S (length rest))%nat →
               hash ((h' :: rest) !!! i) = calculate_hash ((h' :: rest) !!! i)
               ∧ previous_hash ((h' :: rest) !!! i)
                 = hash ((h' :: rest) !!! (i - 1)%nat)) as Hdir.
  { intros h h' Hh Hv [|i] Hi; [lia |].
    specialize (Hv (S i) Hi). simpl in *.
    rewrite Nat.sub_0_r in *. destruct i as [|i]; simpl in *; [| done].
    by rewrite <- Hh. }
  split; apply Hdir; done.
Qed.

(** C10. [is_chain_valid] never compares block 0's stored hash with the
    digest of block 0's fields: its answer depends on block 0 only through
    the stored hash, and there is a chain, a reachable chain whose genesis
    nonce was altered with the stored hash kept, in which the genesis hash
    is not the recomputed digest and [is_chain_valid] is still true. *)
Theorem is_chain_valid_skips_genesis :
  (∀ g g' rest d,
     hash g = hash g' →
     is_chain_valid (mkChain (g :: rest) d)
     = is_chain_valid (mkChain (g' :: rest) d))
  ∧ ∃ bc g rest,
      chain_reachable bc
      ∧ chain bc = g :: rest
      ∧ hash (with_nonce (nonce g + 1) g)
        ≠ calculate_hash (with_nonce (nonce g + 1) g)
      ∧ is_chain_valid
          (mkChain (with_nonce (nonce g + 1) g :: rest) (difficulty bc))
        = true.
Proof.
  split; [apply is_chain_valid_genesis_hash_only |].
  exists (blockchain demo_state_1),
    (chain (blockchain demo_state_1) !!! 0%nat),
    (drop 1 (chain (blockchain demo_state_1))).
  split_and!.
  - exact demo_chain_1_reachable.
  - reflexivity.
  - vm_compute. discriminate.
  - vm_compute. reflexivity.
Qed.

(** ** The scenarios of the specification, run *)

(** A fresh service has the genesis block alone, and it validates. *)
Example scenario_fresh_chain :
  length (chain (blockchain demo_state_0)) = 1%nat
  ∧ is_chain_valid (blockchain demo_state_0) = true.
Proof. split; vm_compute; reflexivity. Qed.

(** After two votes the chain has three blocks and validates. *)
Example scenario_two_votes :
  length (chain (blockchain demo_state_2)) = 3%nat
  ∧ is_chain_valid (blockchain demo_state_2) = true.
Proof. split; vm_compute; reflexivity. Qed.

(** Changing a stored field of block 1 makes validation fail. *)
Example scenario_corrupt_block_1 :
  ∀ g b1 b2, chain (blockchain demo_state_2) = [g; b1; b2] →
    is_chain_valid (mkChain [g; with_nonce (nonce b1 + 1) b1; b2] 2) = false.
Proof. intros g b1 b2 [= <- <- <-]. vm_compute. reflexivity. Qed.

Example scenario_has_voted :
  has_voter_voted (PStr "voterA") (PStr "e1") demo_state_2 = Ok true
  ∧ has_voter_voted (PStr "voterA") (PStr "e2") demo_state_2 = Ok false.
Proof. split; vm_compute; reflexivity. Qed.

(** * Further properties of the ledger *)

(** ** The mining loop *)

Lemma mine_steps_nonce k self : nonce (mine_steps k self) = nonce self + Z.of_nat k.
Proof.
  revert self. induction k as [|k IH]; intros self; simpl; [lia |].
  rewrite IH. simpl. lia.
Qed.

(** X1. [mine_block] returns exactly the first block of the search that
    meets the difficulty: it returns [mined] if and only if [mined] is the
    block after some [k] passes of the loop body, [k] within the fuel, that
    block is sealed and no block after fewer passes is; its nonce is then
    the nonce at entry plus [k]. *)
Theorem mine_block_first_sealed (fuel : nat) (difficulty : Z)
    (self mined : Block) :
  mine_block fuel difficulty self = Ok mined ↔
  ∃ k : nat,
    (k ≤ fuel)%nat
    ∧ mined = mine_steps k self
    ∧ nonce mined = nonce self + Z.of_nat k
    ∧ sealed difficulty mined = true
    ∧ ∀ j : nat, (j < k)%nat → sealed difficulty (mine_steps j self) = false.
Proof.
  revert self mined. induction fuel as [|fuel IH]; intros self mined;
    rewrite mine_block_unfold; destruct (sealed difficulty self) eqn:Hs.
  - split.
    + intros [= <-]. exists 0%nat.
      split_and!; simpl; try done; try lia; intros; lia.
    + intros ([|k] & Hk & -> & _ & _ & Hfirst); [done |].
      specialize (Hfirst 0%nat ltac:(lia)). simpl in Hfirst. congruence.
  - split; [done |]. intros (k & Hk & -> & _ & Hsealed & _).
    assert (k = 0%nat) as -> by lia. simpl in Hsealed. congruence.
  - split.
    + intros [= <-]. exists 0%nat.
      split_and!; simpl; try done; try lia; intros; lia.
    + intros ([|k] & Hk & -> & _ & _ & Hfirst); [done |].
      specialize (Hfirst 0%nat ltac:(lia)). simpl in Hfirst. congruence.
  - rewrite IH. split.
    + intros (k & Hk & -> & _ & Hsealed & Hfirst). exists (S k).
      split_and!; [lia | done | exact (mine_steps_nonce (S k) self) | done |].
      intros [|j] Hj; [done |]. simpl. apply Hfirst. lia.
    + intros ([|k] & Hk & -> & _ & Hsealed & Hfirst);
        [simpl in Hsealed; congruence |].
      exists k. split_and!; [lia | done | | done |].
      * rewrite mine_steps_nonce. simpl. lia.
      * intros j Hj. apply (Hfirst (S j)). lia.
Qed.

(** X2. Mining a block that mining returned changes nothing: whatever the
    fuel, the second call returns the block as it is, nonce included. *)
Theorem mine_block_again_is_noop (fuel fuel' : nat) (difficulty : Z)
    (self mined : Block) :
  mine_block fuel difficulty self = Ok mined →
  mine_block fuel' difficulty mined = Ok mined.
Proof.
  intros Hs%mine_block_sealed. rewrite mine_block_unfold. by rewrite Hs.
Qed.

Lemma mine_block_again_is_noop_witness :
  mine_block 5 2 demo_genesis = Ok demo_genesis_mined
  ∧ mine_block 0 2 demo_genesis_mined = Ok demo_genesis_mined.
Proof.
  assert (mine_block 5 2 demo_genesis = Ok demo_genesis_mined) as Hm
    by (vm_compute; reflexivity).
  split; [exact Hm |].
  exact (mine_block_again_is_noop 5 0 2 demo_genesis demo_genesis_mined Hm).
Defined.

Lemma str_take_length n s :
  String.length (str_take n s) = (n `min` String.length s)%nat.
Proof.
  revert s. induction n as [|n IH]; intros [|c s]; simpl; try done.
  by rewrite IH.
Qed.

Lemma str_replicate_length n c : String.length (str_replicate n c) = n.
Proof. induction n as [|n IH]; simpl; [done | by rewrite IH]. Qed.

Lemma calculate_hash_length b : String.length (calculate_hash b) = 64%nat.
Proof. apply sha256_hex_shape. Qed.

Lemma sealed_out_of_range d self :
  String.length (hash self) = 64%nat →
  64 < d ∨ -64 < d < 0 → sealed d self = false.
Proof.
  intros Hlen Hd. unfold sealed. apply bool_decide_eq_false. intros Heq.
  apply (f_equal String.length) in Heq. revert Heq.
  unfold py_slice_to, py_repeat.
  rewrite str_replicate_length. destruct (d <? 0) eqn:Hneg.
  - apply Z.ltb_lt in Hneg. rewrite str_take_length, Hlen. lia.
  - apply Z.ltb_ge in Hneg. rewrite str_take_length, Hlen. lia.
Qed.

Lemma sealed_trivially d self : d = 0 ∨ d ≤ -64 →
  String.length (hash self) = 64%nat → sealed d self = true.
Proof.
  intros Hd Hlen. unfold sealed. apply bool_decide_eq_true.
  unfold py_slice_to, py_repeat. destruct (d <? 0) eqn:Hneg.
  - apply Z.ltb_lt in Hneg. rewrite Hlen.
    replace (Z.to_nat (Z.of_nat 64 + d)) with 0%nat by lia.
    replace (Z.to_nat d) with 0%nat by lia. by destruct (hash self).
  - apply Z.ltb_ge in Hneg. replace d with 0 by lia. by destruct (hash self).
Qed.

(** X3. The difficulties that make no sense.  For a block with a
    sixty-four character hash, as every block the constructor builds has:
    with a difficulty above 64, or from -63 to -1, the loop condition stays
    true however long the search runs, so [mine_block] never returns; with
    difficulty 0, or -64 and below, it returns at once and the block is
    untouched. *)
Theorem mine_block_degenerate_difficulty (fuel : nat) (difficulty : Z)
    (self : Block) :
  String.length (hash self) = 64%nat →
  ((64 < difficulty ∨ -64 < difficulty < 0) →
     mine_block fuel difficulty self = OutOfFuel)
  ∧ ((difficulty = 0 ∨ difficulty ≤ -64) →
     mine_block fuel difficulty self = Ok self).
Proof.
  intros Hlen. split.
  - intros Hd. revert self Hlen.
    induction fuel as [|fuel IH]; intros self Hlen;
      rewrite mine_block_unfold, sealed_out_of_range by done; [done |].
    apply IH. rewrite mine_step_consistent. apply calculate_hash_length.
  - intros Hd. rewrite mine_block_unfold. by rewrite sealed_trivially.
Qed.

Lemma mine_block_degenerate_difficulty_witness :
  String.length (hash demo_genesis) = 64%nat
  ∧ mine_block 3 65 demo_genesis = OutOfFuel
  ∧ mine_block 3 (-1) demo_genesis = OutOfFuel
  ∧ mine_block 0 0 demo_genesis = Ok demo_genesis
  ∧ mine_block 0 (-64) demo_genesis = Ok demo_genesis.
Proof.
  assert (String.length (hash demo_genesis) = 64%nat) as Hlen
    by apply calculate_hash_length.
  split; [exact Hlen |].
  split_and!.
  - apply (mine_block_degenerate_difficulty 3 65 demo_genesis Hlen). lia.
  - apply (mine_block_degenerate_difficulty 3 (-1) demo_genesis Hlen). lia.
  - apply (mine_block_degenerate_difficulty 0 0 demo_genesis Hlen). lia.
  - apply (mine_block_degenerate_difficulty 0 (-64) demo_genesis Hlen). lia.
Defined.

(** ** The chain, block by block *)

Lemma chain_reachable_anchored bc :
  chain_reachable bc →
  difficulty bc = 2
  ∧ (∃ g rest, chain bc = g :: rest ∧ index g = 0
               ∧ previous_hash g = "0" ∧ data g = genesis_data)
  ∧ Forall (λ b, sealed 2 b = true) (chain bc).
Proof.
  induction 1 as [fuel now bc Hinit|fuel d now bc r bc' _ IH Ha].
  - rewrite VotingBlockchain_init_eq in Hinit.
    destruct (mine_block _ _ _) as [g| |] eqn:Hm; try discriminate.
    injection Hinit as <-. simpl.
    destruct (mine_block_fields _ _ _ _ Hm) as [(Hi & _ & Hd & Hp) _].
    simpl in *. split_and!; [done | by exists g, [] |].
    apply Forall_singleton. by eapply mine_block_sealed.
  - destruct IH as (Hdiff & (g & rest & Hc & Hg) & Hsealed).
    apply add_block_cases in Ha as [(latest & mined & _ & Hm & _ & ->)|[_ ->]];
      [| by split_and!; [| exists g, rest |]].
    simpl. split_and!; [done | | ].
    + exists g, (rest ++ [mined]). by rewrite Hc.
    + apply Forall_app. split; [done |]. apply Forall_singleton.
      rewrite Hdiff in Hm. by eapply mine_block_sealed.
Qed.

(** X4. Genesis anchoring.  In every chain built by [VotingBlockchain()]
    and [add_block] the difficulty is 2, the chain is not empty, its first
    block has index 0, previous hash ["0"] and the genesis data, and every
    block, the first included, stores its own position as its index. *)
Theorem reachable_chain_anchored (bc : VotingBlockchain) :
  chain_reachable bc →
  difficulty bc = 2
  ∧ (∃ g rest, chain bc = g :: rest ∧ index g = 0
               ∧ previous_hash g = "0" ∧ data g = genesis_data)
  ∧ (∀ (i : nat) b, chain bc !! i = Some b → index b = Z.of_nat i).
Proof.
  intros Hr.
  destruct (chain_reachable_anchored _ Hr) as (Hd & Hg & _).
  destruct (chain_reachable_invariant _ Hr) as [Hlink _].
  split_and!; [done | done |].
  intros [|i] b Hb.
  - destruct Hg as (g & rest & Hc & Hi & _). rewrite Hc in Hb.
    by injection Hb as <-.
  - destruct (Hlink (S i)) as [_ Hi].
    { apply lookup_lt_Some in Hb. lia. }
    by rewrite (list_lookup_total_correct _ _ _ Hb) in Hi.
Qed.

Lemma reachable_chain_anchored_witness :
  chain_reachable (blockchain demo_state_2)
  ∧ (∃ g rest, chain (blockchain demo_state_2) = g :: rest ∧ index g = 0
               ∧ previous_hash g = "0" ∧ data g = genesis_data)
  ∧ index (chain (blockchain demo_state_2) !!! 2%nat) = 2.
Proof.
  assert (chain_reachable (blockchain demo_state_2)) as Hr
    by exact (service_reachable_chain _ demo_service_2_reachable).
  destruct (reachable_chain_anchored _ Hr) as (_ & Hg & Hi).
  split_and!; [exact Hr | exact Hg |].
  exact (Hi 2%nat _ eq_refl).
Defined.

(** X5. Every stored block is sealed: in a chain built by
    [VotingBlockchain()] and [add_block] the hash of every block begins
    with two characters ['0']. *)
Theorem reachable_chain_sealed (bc : VotingBlockchain) (b : Block) :
  chain_reachable bc → b ∈ chain bc → ∃ rest, hash b = "00" +:+ rest.
Proof.
  intros (_ & _ & Hs)%chain_reachable_anchored Hin.
  rewrite Forall_forall in Hs.
  exact (sealed_leading_zeros 2 b (Hs b Hin)).
Qed.

Lemma reachable_chain_sealed_witness :
  let b := chain (blockchain demo_state_2) !!! 2%nat in
  chain_reachable (blockchain demo_state_2)
  ∧ b ∈ chain (blockchain demo_state_2)
  ∧ ∃ rest, hash b = "00" +:+ rest.
Proof.
  intros b.
  assert (chain_reachable (blockchain demo_state_2)) as Hr
    by exact (service_reachable_chain _ demo_service_2_reachable).
  assert (b ∈ chain (blockchain demo_state_2)) as Hin
    by (right; right; left).
  split_and!; [exact Hr | exact Hin |].
  exact (reachable_chain_sealed _ b Hr Hin).
Defined.



(** X7. What a successful [add_block] leaves: the chain is the old chain
    followed by the returned block, which stores the old length as its
    index, the clock reading as its timestamp, the data it was given and
    the hash of the block that was last as its previous hash; its hash is
    the digest of its fields and meets the difficulty of the chain; and
    [get_latest_block] now returns it. *)
Theorem add_block_postcondition (fuel : nat) (d : dict) (now : string)
    (bc bc' : VotingBlockchain) (b : Block) :
  add_block fuel d now bc = (Ok b, bc') →
  chain bc' = chain bc ++ [b]
  ∧ difficulty bc' = difficulty bc
  ∧ index b = Z.of_nat (length (chain bc))
  ∧ timestamp b = now
  ∧ data b = d
  ∧ (∃ latest, last (chain bc) = Some latest
               ∧ previous_hash b = hash latest)
  ∧ hash b = calculate_hash b
  ∧ (∃ rest, hash b = py_repeat "0" (difficulty bc) +:+ rest)
  ∧ get_latest_block bc' = (Ok b, bc').
Proof.
  intros Ha.
  apply add_block_cases in Ha
    as [(latest & mined & Hl & Hm & [= <-] & ->)|[Hr _]]; [| by edestruct Hr].
  destruct (mine_block_fields _ _ _ _ Hm) as [(Hi & Ht & Hd & Hp) _].
  simpl in *. split_and!; try done.
  - by exists latest.
  - eapply mine_block_consistent; [apply Block_init_consistent | exact Hm].
  - eapply sealed_leading_zeros, mine_block_sealed, Hm.
  - rewrite get_latest_block_eq. simpl. by rewrite last_snoc.
Qed.

Lemma add_block_postcondition_witness :
  ∃ b, add_block 8
         (make_vote_data (sha256_hex "voterA") (PStr "e1")
            (sha256_hex "cand1") "2024-01-15 10:31:00.000001"
            "00112233445566778899aabbccddeeff")
         "2024-01-15 10:31:00.000092" (blockchain demo_state_0)
       = (Ok b, blockchain demo_state_1)
    ∧ chain (blockchain demo_state_1) = chain (blockchain demo_state_0) ++ [b]
    ∧ index b = 1
    ∧ get_latest_block (blockchain demo_state_1)
      = (Ok b, blockchain demo_state_1).
Proof.
  eexists. split; [vm_compute; reflexivity |].
  edestruct (add_block_postcondition 8
               (make_vote_data (sha256_hex "voterA") (PStr "e1")
                  (sha256_hex "cand1") "2024-01-15 10:31:00.000001"
                  "00112233445566778899aabbccddeeff")
               "2024-01-15 10:31:00.000092" (blockchain demo_state_0)
               (blockchain demo_state_1))
    as (Hc & _ & Hi & _ & _ & _ & _ & _ & Hlatest);
    [vm_compute; reflexivity |].
  split_and!; [exact Hc | exact Hi | exact Hlatest].
Defined.

(** ** What validation checks *)

(** X8. [is_chain_valid] is true exactly when every block after the first
    stores the digest of its own fields as its hash and the hash of the
    block before it as its previous hash.  Nothing else enters: not the
    first block's fields, not the indices, not the difficulty. *)
Theorem is_chain_valid_iff (bc : VotingBlockchain) :
  is_chain_valid bc = true ↔
  ∀ (i : nat) previous current,
    chain bc !! i = Some previous → chain bc !! S i = Some current →
    hash current = calculate_hash current
    ∧ previous_hash current = hash previous.
Proof.
  rewrite is_chain_valid_spec. split.
  - intros Hv i previous current Hp Hc.
    destruct (Hv (S i)) as [Hh Hl].
    { apply lookup_lt_Some in Hc. lia. }
    rewrite (list_lookup_total_correct _ _ _ Hc) in Hh, Hl.
    replace (S i - 1)%nat with i in Hl by lia.
    by rewrite (list_lookup_total_correct _ _ _ Hp) in Hl.
  - intros Hv [|i] Hi; [lia |].
    destruct (lookup_lt_is_Some_2 (chain bc) (S i)) as [current Hc]; [lia |].
    destruct (lookup_lt_is_Some_2 (chain bc) i) as [previous Hp]; [lia |].
    replace (S i - 1)%nat with i by lia.
    rewrite (list_lookup_total_correct _ _ _ Hc),
      (list_lookup_total_correct _ _ _ Hp).
    by apply (Hv i).
Qed.

(** X9. Rewriting a stored hash is noticed: in a chain that validates,
    replacing the stored hash of a block by another value makes
    [is_chain_valid] false, provided the block is not the first or has a
    successor (the check on the successor's previous hash catches the
    first block). *)
Theorem is_chain_valid_detects_hash_rewrite (bc : VotingBlockchain)
    (j : nat) (b : Block) (h' : string) :
  is_chain_valid bc = true →
  chain bc !! j = Some b →
  h' ≠ hash b →
  (0 < j)%nat ∨ (S j < length (chain bc))%nat →
  is_chain_valid
    (mkChain (<[j := with_hash h' b]> (chain bc)) (difficulty bc)) = false.
Proof.
  intros Hv Hb Hh Hj. apply not_true_is_false. intros Hv'.
  rewrite is_chain_valid_spec in Hv, Hv'. simpl in Hv'.
  rewrite length_insert in Hv'.
  pose proof (lookup_lt_Some _ _ _ Hb) as Hlt.
  destruct (decide (0 < j)%nat) as [Hpos|Hzero].
  - destruct (Hv j) as [Hself _]; [lia |].
    destruct (Hv' j) as [Hself' _]; [lia |].
    rewrite list_lookup_total_insert_eq in Hself' by done.
    rewrite (list_lookup_total_correct _ _ _ Hb) in Hself.
    simpl in Hself'. apply Hh. rewrite Hself', Hself. reflexivity.
  - assert (j = 0%nat) as -> by lia.
    destruct Hj as [Hj|Hj]; [lia |].
    destruct (Hv 1%nat) as [_ Hlink]; [lia |].
    destruct (Hv' 1%nat) as [_ Hlink']; [lia |].
    rewrite list_lookup_total_insert_ne in Hlink' by done.
    simpl in Hlink, Hlink'.
    rewrite list_lookup_total_insert_eq in Hlink' by done.
    rewrite (list_lookup_total_correct _ _ _ Hb) in Hlink.
    simpl in Hlink'. congruence.
Qed.

Lemma is_chain_valid_detects_hash_rewrite_witness :
  let bc := blockchain demo_state_1 in
  let g := chain bc !!! 0%nat in
  is_chain_valid bc = true
  ∧ chain bc !! 0%nat = Some g
  ∧ "ff" ≠ hash g
  ∧ (S 0 < length (chain bc))%nat
  ∧ is_chain_valid (mkChain (<[0%nat := with_hash "ff" g]> (chain bc)) 2)
    = false.
Proof.
  intros bc g.
  assert (is_chain_valid bc = true) as Hv by (vm_compute; reflexivity).
  assert (chain bc !! 0%nat = Some g) as Hg by reflexivity.
  assert ("ff" ≠ hash g) as Hh by discriminate.
  assert (S 0 < length (chain bc))%nat as Hlen by (simpl; lia).
  split_and!; [exact Hv | exact Hg | exact Hh | exact Hlen |].
  exact (is_chain_valid_detects_hash_rewrite bc 0 g "ff" Hv Hg Hh
           (or_intror Hlen)).
Defined.

Lemma is_chain_valid_snoc_iff c latest b d d' :
  last c = Some latest →
  is_chain_valid (mkChain (c ++ [b]) d) = true ↔
  is_chain_valid (mkChain c d') = true
  ∧ hash b = calculate_hash b ∧ previous_hash b = hash latest.
Proof.
  intros Hl. rewrite !is_chain_valid_spec. simpl. rewrite length_app. simpl.
  assert (c !!! (length c - 1)%nat = latest) as Hlast.
  { rewrite last_lookup in Hl.
    replace (length c - 1)%nat with (pred (length c)) by lia.
    by apply list_lookup_total_correct. }
  assert (0 < length c)%nat as Hpos.
  { destruct c; [done | simpl; lia]. }
  split.
  - intros Hv. split_and!.
    + intros i Hi. specialize (Hv i ltac:(lia)).
      by rewrite !lookup_total_app_l in Hv by lia.
    + destruct (Hv (length c) ltac:(lia)) as [Hh _].
      rewrite lookup_total_app_r, Nat.sub_diag in Hh by lia. done.
    + destruct (Hv (length c) ltac:(lia)) as [_ Hp].
      rewrite lookup_total_app_r, Nat.sub_diag in Hp by lia.
      rewrite lookup_total_app_l, Hlast in Hp by lia. done.
  - intros (Hv & Hh & Hp) i Hi.
    destruct (decide (i < length c)%nat) as [Hin|Hout].
    + rewrite !lookup_total_app_l by lia. apply Hv. lia.
    + assert (i = length c) as -> by lia.
      rewrite lookup_total_app_r, Nat.sub_diag by lia.
      rewrite lookup_total_app_l, Hlast by lia. done.
Qed.

(** X10. Validation composes over appending: for a chain with a last
    block, [is_chain_valid] of the chain with one more block is
    [is_chain_valid] of the chain, and the new block storing the digest of
    its fields, and its previous hash being the hash of the block that was
    last. *)
Theorem is_chain_valid_snoc (c : list Block) (latest b : Block) (d : Z) :
  last c = Some latest →
  is_chain_valid (mkChain (c ++ [b]) d)
  = is_chain_valid (mkChain c d)
    && bool_decide (hash b = calculate_hash b)
    && bool_decide (previous_hash b = hash latest).
Proof.
  intros Hl. apply eq_true_iff_eq.
  rewrite (is_chain_valid_snoc_iff c latest b d d Hl).
  rewrite !andb_true_iff, !bool_decide_eq_true. tauto.
Qed.

Lemma is_chain_valid_snoc_witness :
  let c := chain (blockchain demo_state_1) in
  let latest := c !!! 1%nat in
  let b := with_hash "00" latest in
  last c = Some latest
  ∧ is_chain_valid (mkChain (c ++ [b]) 2) = false.
Proof.
  intros c latest b.
  assert (last c = Some latest) as Hl by reflexivity.
  split; [exact Hl |].
  rewrite (is_chain_valid_snoc c latest b 2 Hl).
  assert (bool_decide (hash b = calculate_hash b) = false) as ->
    by (vm_compute; reflexivity).
  by rewrite andb_false_r.
Defined.

(** X11. Validation does not ask for proof of work: a block built by the
    constructor on the last block of a chain and appended as it is, nonce
    0, without mining, leaves the answer of [is_chain_valid] what it
    was. *)
Theorem is_chain_valid_ignores_proof_of_work (c : list Block)
    (latest : Block) (now : string) (d : dict) (difficulty : Z) :
  last c = Some latest →
  let unmined := Block_init (Z.of_nat (length c)) now d (hash latest) in
  nonce unmined = 0
  ∧ is_chain_valid (mkChain (c ++ [unmined]) difficulty)
    = is_chain_valid (mkChain c difficulty).
Proof.
  intros Hl unmined. split; [done |]. apply eq_true_iff_eq.
  rewrite (is_chain_valid_snoc_iff c latest unmined difficulty difficulty Hl).
  split; [tauto |]. intros Hv. split_and!; [done | | done].
  apply Block_init_consistent.
Qed.

Lemma is_chain_valid_ignores_proof_of_work_witness :
  let c := chain (blockchain demo_state_0) in
  let latest := c !!! 0%nat in
  let unmined := Block_init 1 "2024-01-15 10:31:00.000000" ∅ (hash latest) in
  last c = Some latest
  ∧ sealed 2 unmined = false
  ∧ is_chain_valid (mkChain (c ++ [unmined]) 2) = true.
Proof.
  intros c latest unmined.
  assert (last c = Some latest) as Hl by reflexivity.
  split_and!; [exact Hl | vm_compute; reflexivity |].
  destruct (is_chain_valid_ignores_proof_of_work c latest
              "2024-01-15 10:31:00.000000" ∅ 2 Hl) as [_ Hv].
  etrans; [exact Hv |]. vm_compute. reflexivity.
Defined.

(** ** Casting a vote, and the queries afterwards *)

(** A call that returns a receipt, in full. *)
Lemma cast_vote_success fuel v e c now_vote token now_block st st' receipt :
  cast_vote_to_blockchain fuel v e c now_vote token now_block st
    = (Ok receipt, st') →
  ∃ voter block,
    v = PStr voter
    ∧ chain (blockchain st') = chain (blockchain st) ++ [block]
    ∧ difficulty (blockchain st') = difficulty (blockchain st)
    ∧ receipt = mkReceipt true (hash block) (PStr token) (index block)
                  (timestamp block)
    ∧ data block = make_vote_data (sha256_hex voter) e
                     (sha256_hex (py_str c)) now_vote token
    ∧ index block = Z.of_nat (length (chain (blockchain st)))
    ∧ timestamp block = now_block
    ∧ hash block = calculate_hash block.
Proof.
  intros Hc.
  apply cast_vote_cases in Hc as [(voter & block & -> & Ha & [= ->] & ->)|[Hr _]];
    [| by edestruct Hr].
  apply add_block_cases in Ha
    as [(latest & mined & _ & Hm & [= <-] & _)|[Hr _]]; [| by edestruct Hr].
  destruct (mine_block_fields _ _ _ _ Hm) as [(Hi & Ht & Hd & _) _].
  simpl in *. exists voter, block. split_and!; try done.
  eapply mine_block_consistent; [apply Block_init_consistent | exact Hm].
Qed.

(** X12. The receipt describes the block that was appended: its index is
    the length the chain had, its timestamp the clock reading taken for the
    block, its transaction hash the random token; the block's data holds
    the SHA-256 digests of the voter identifier and of [str(candidate_id)],
    the election id as given, the first clock reading and the token. *)
Theorem cast_vote_receipt fuel (v e c : pyval)
    (now_vote token now_block : string) (st st' : BlockchainService)
    (receipt : CastReceipt) :
  cast_vote_to_blockchain fuel v e c now_vote token now_block st
    = (Ok receipt, st') →
  ∃ voter block,
    v = PStr voter
    ∧ last (chain (blockchain st')) = Some block
    ∧ success receipt = true
    ∧ block_hash receipt = hash block
    ∧ transaction_hash receipt = PStr token
    ∧ block_index receipt = Z.of_nat (length (chain (blockchain st)))
    ∧ index block = block_index receipt
    ∧ receipt_timestamp receipt = now_block
    ∧ timestamp block = now_block
    ∧ get "type" (data block) = PStr "vote"
    ∧ get "voter_hash" (data block) = PStr (sha256_hex voter)
    ∧ get "election_id" (data block) = e
    ∧ get "candidate_hash" (data block) = PStr (sha256_hex (py_str c))
    ∧ get "timestamp" (data block) = PStr now_vote
    ∧ get "transaction_id" (data block) = PStr token.
Proof.
  intros (voter & block & -> & Hc & _ & -> & Hd & Hi & Ht & _)%cast_vote_success.
  exists voter, block. rewrite Hc, last_snoc, Hd. simpl.
  split_and!; try done.
Qed.

Lemma cast_vote_receipt_witness :
  ∃ receipt block,
    cast_vote_to_blockchain 8 (PStr "voterA") (PStr "e1") (PStr "cand1")
      "2024-01-15 10:31:00.000001" "00112233445566778899aabbccddeeff"
      "2024-01-15 10:31:00.000092" demo_state_0 = (Ok receipt, demo_state_1)
    ∧ last (chain (blockchain demo_state_1)) = Some block
    ∧ block_index receipt = 1
    ∧ block_hash receipt = hash block
    ∧ get "voter_hash" (data block) = PStr (sha256_hex "voterA")
    ∧ get "candidate_hash" (data block) = PStr (sha256_hex "cand1").
Proof.
  eexists. 
  edestruct (cast_vote_receipt 8 (PStr "voterA") (PStr "e1") (PStr "cand1")
               "2024-01-15 10:31:00.000001" "00112233445566778899aabbccddeeff"
               "2024-01-15 10:31:00.000092" demo_state_0 demo_state_1)
    as (voter & block & Hv & Hl & _ & Hh & _ & Hi & _ & _ & _ & _ & Hvh & _
        & Hch & _);
    [vm_compute; reflexivity |].
  injection Hv as <-. exists block.
  split_and!; [vm_compute; reflexivity | exact Hl | exact Hi | exact Hh
              | exact Hvh | exact Hch].
Defined.

Lemma has_voter_voted_loop_app l1 l2 h :
  has_voter_voted_loop (l1 ++ l2) h
  = has_voter_voted_loop l1 h || has_voter_voted_loop l2 h.
Proof.
  induction l1 as [|b l1 IH]; simpl; [done |].
  by destruct (py_eq (get "voter_hash" (data b)) (PStr h)).
Qed.

Lemma has_voter_voted_eq voter e st :
  has_voter_voted (PStr voter) e st
  = Ok (has_voter_voted_loop
          (filter (vote_block_of e) (chain (blockchain st)))
          (sha256_hex voter)).
Proof.
  unfold has_voter_voted. simpl. by rewrite get_blocks_by_election_filter.
Qed.

(** X13. After a vote is cast, [has_voter_voted] is true for that voter in
    that election, and for any other voter and election it answers as
    before, unless the election is the same and the voter identifier has
    the same digest. *)
Theorem cast_vote_then_has_voter_voted fuel (v e c : pyval)
    (now_vote token now_block : string) (st st' : BlockchainService)
    (receipt : CastReceipt) :
  cast_vote_to_blockchain fuel v e c now_vote token now_block st
    = (Ok receipt, st') →
  ∃ voter,
    v = PStr voter
    ∧ has_voter_voted (PStr voter) e st' = Ok true
    ∧ ∀ voter' e' before,
        has_voter_voted (PStr voter') e' st = Ok before →
        has_voter_voted (PStr voter') e' st'
        = Ok (before
              || bool_decide (e' = e ∧ sha256_hex voter' = sha256_hex voter)).
Proof.
  intros (voter & block & -> & Hc & _ & _ & Hd & _)%cast_vote_success.
  exists voter.
  assert (∀ voter' e',
            has_voter_voted (PStr voter') e' st'
            = Ok (has_voter_voted_loop
                    (filter (vote_block_of e') (chain (blockchain st)))
                    (sha256_hex voter')
                  || bool_decide (e' = e
                                  ∧ sha256_hex voter' = sha256_hex voter)))
    as Hafter.
  { intros voter' e'. rewrite has_voter_voted_eq, Hc, filter_app.
    rewrite has_voter_voted_loop_app. do 2 f_equal.
    assert (vote_block_of e' block ↔ e' = e) as Hvb.
    { unfold vote_block_of.
      rewrite Hd, make_vote_data_type, make_vote_data_election_id.
      split; [by intros [_ <-] | by intros ->]. }
    rewrite filter_cons, filter_nil.
    destruct (decide (vote_block_of e' block)) as [Hyes|Hno].
    - apply Hvb in Hyes as ->. simpl.
      rewrite Hd, make_vote_data_voter_hash. unfold py_eq.
      destruct (decide (sha256_hex voter' = sha256_hex voter)) as [->|Hh].
      + by rewrite !bool_decide_eq_true_2.
      + rewrite !bool_decide_eq_false_2; [done | tauto | congruence].
    - simpl. rewrite bool_decide_eq_false_2; [done |].
      intros [He _]. by apply Hno, Hvb. }
  split_and!; [done | |].
  - rewrite Hafter. f_equal. rewrite bool_decide_eq_true_2 by done.
    apply orb_true_r.
  - intros voter' e' before Hb. rewrite Hafter. rewrite has_voter_voted_eq in Hb.
    by injection Hb as <-.
Qed.

Lemma cast_vote_then_has_voter_voted_witness :
  ∃ receipt,
    cast_vote_to_blockchain 8 (PStr "voterA") (PStr "e1") (PStr "cand1")
      "2024-01-15 10:31:00.000001" "00112233445566778899aabbccddeeff"
      "2024-01-15 10:31:00.000092" demo_state_0 = (Ok receipt, demo_state_1)
    ∧ has_voter_voted (PStr "voterA") (PStr "e1") demo_state_0 = Ok false
    ∧ has_voter_voted (PStr "voterA") (PStr "e1") demo_state_1 = Ok true
    ∧ has_voter_voted (PStr "voterA") (PStr "e2") demo_state_1 = Ok false.
Proof.
  eexists.
  edestruct (cast_vote_then_has_voter_voted 8 (PStr "voterA") (PStr "e1")
               (PStr "cand1") "2024-01-15 10:31:00.000001"
               "00112233445566778899aabbccddeeff" "2024-01-15 10:31:00.000092"
               demo_state_0 demo_state_1) as (voter & Hv & Hyes & Hother);
    [vm_compute; reflexivity |].
  injection Hv as <-.
  assert (has_voter_voted (PStr "voterA") (PStr "e2") demo_state_0 = Ok false)
    as Hbefore by (vm_compute; reflexivity).
  split_and!; [vm_compute; reflexivity | vm_compute; reflexivity | exact Hyes |].
  rewrite (Hother "voterA" (PStr "e2") false Hbefore).
  rewrite bool_decide_eq_false_2; [done |]. intros [[=] _].
Defined.

Lemma genesis_not_vote e b :
  data b = genesis_data → ¬ vote_block_of e b.
Proof. intros Hd [Ht _]. by rewrite Hd in Ht. Qed.

(** X14. A service just built has nothing to report: whatever the voter
    and the election, [has_voter_voted] is false, the tally is zero with an
    empty distribution and a verified chain, and the statistics show one
    block at difficulty 2. *)
Theorem fresh_service_is_empty (fuel : nat) (now : string)
    (st : BlockchainService) :
  BlockchainService_init fuel now = Ok st →
  (∀ voter e, has_voter_voted (PStr voter) e st = Ok false)
  ∧ (∀ e, get_election_results e st = mkResults e 0 ∅ true)
  ∧ (∃ g, chain (blockchain st) = [g]
          ∧ get_blockchain_stats st = Ok (mkStats 1 true (hash g) 2)).
Proof.
  unfold BlockchainService_init. rewrite VotingBlockchain_init_eq.
  destruct (mine_block _ _ _) as [g| |] eqn:Hm; try discriminate.
  intros [= <-].
  destruct (mine_block_fields _ _ _ _ Hm) as [(_ & _ & Hd & _) _].
  simpl in Hd. symmetry in Hd.
  assert (∀ e, filter (vote_block_of e) [g] = []) as Hnone.
  { intros e. rewrite filter_cons, filter_nil.
    rewrite decide_False; [done |]. by apply genesis_not_vote. }
  split_and!.
  - intros voter e. rewrite has_voter_voted_eq. simpl. by rewrite Hnone.
  - intros e. unfold get_election_results.
    rewrite get_blocks_by_election_filter. simpl. by rewrite Hnone.
  - by exists g.
Qed.

Lemma fresh_service_is_empty_witness :
  BlockchainService_init 8 demo_genesis_time = Ok demo_state_0
  ∧ has_voter_voted (PStr "voterA") (PStr "e1") demo_state_0 = Ok false
  ∧ get_election_results (PStr "e1") demo_state_0
    = mkResults (PStr "e1") 0 ∅ true.
Proof.
  assert (BlockchainService_init 8 demo_genesis_time = Ok demo_state_0)
    as Hinit by (vm_compute; reflexivity).
  destruct (fresh_service_is_empty 8 demo_genesis_time demo_state_0 Hinit)
    as (Hvoted & Hresults & _).
  split_and!; [exact Hinit | apply Hvoted | apply Hresults].
Defined.

(** ** The tally, candidate by candidate *)

Lemma count_votes_acc_lookup blocks (acc : gmap pyval Z) k :
  foldl (λ (vote_counts : gmap pyval Z) block,
           let candidate_hash := get "candidate_hash" (data block) in
           if truthy candidate_hash
           then <[candidate_hash :=
                    default 0 (vote_counts !! candidate_hash) + 1]> vote_counts
           else vote_counts) acc blocks !! k
  = let n := length (filter (λ b, get "candidate_hash" (data b) = k) blocks) in
    if truthy k && (0 <? Z.of_nat n)
    then Some (default 0 (acc !! k) + Z.of_nat n)
    else acc !! k.
Proof.
  revert acc. induction blocks as [|b blocks IH]; intros acc; simpl.
  - by rewrite andb_false_r.
  - rewrite IH, filter_cons. clear IH.
    destruct (decide (get "candidate_hash" (data b) = k)) as [->|Hne].
    + destruct (truthy k) eqn:Hk; simpl; [| done].
      rewrite lookup_insert_eq. simpl.
      replace (0 <? Z.of_nat (S (length
                 (filter (λ b0, get "candidate_hash" (data b0) = k) blocks))))
        with true by (symmetry; apply Z.ltb_lt; lia).
      destruct (0 <? Z.of_nat _) eqn:Hn; f_equal; [lia |].
      apply Z.ltb_ge in Hn. lia.
    + destruct (truthy (get "candidate_hash" (data b))); [| done].
      by rewrite lookup_insert_ne.
Qed.

(** X15. The distribution counts every candidate exactly: the entry of
    [vote_distribution] under a key is the number of vote blocks of the
    election whose [candidate_hash] is that key; a key no such block has,
    and a key that counts as false in a condition ([None], [0], the empty
    string), has no entry. *)
Theorem vote_distribution_counts (e k : pyval) (st : BlockchainService) :
  let n := Z.of_nat (length (votes_for e k (chain (blockchain st)))) in
  vote_distribution (get_election_results e st) !! k
  = if truthy k && (0 <? n) then Some n else None.
Proof.
  unfold get_election_results, count_votes, votes_for. simpl.
  rewrite count_votes_acc_lookup, get_blocks_by_election_filter. simpl.
  rewrite list_filter_filter, lookup_empty. simpl.
  rewrite (list_filter_iff
             (λ b, get "candidate_hash" (data b) = k ∧ vote_block_of e b)
             (λ b, vote_block_of e b ∧ get "candidate_hash" (data b) = k))
    by (intros b; tauto).
  done.
Qed.

Lemma filter_vote_block_snoc e' e c block :
  get "type" (data block) = PStr "vote" →
  get "election_id" (data block) = e →
  filter (vote_block_of e') (c ++ [block])
  = filter (vote_block_of e') c ++ (if decide (e' = e) then [block] else []).
Proof.
  intros Ht He. rewrite filter_app, filter_cons, filter_nil. f_equal.
  destruct (decide (e' = e)) as [->|Hne].
  - by rewrite decide_True.
  - rewrite decide_False; [done |]. intros [_ ?]. congruence.
Qed.

(** X16. What one more vote does to the tally: for the election voted in,
    [total_votes] grows by one and the count under the digest of
    [str(candidate_id)] grows by one, every other count staying; for every
    other election the results are what they were. *)
Theorem cast_vote_then_election_results fuel (v e c : pyval)
    (now_vote token now_block : string) (st st' : BlockchainService)
    (receipt : CastReceipt) :
  cast_vote_to_blockchain fuel v e c now_vote token now_block st
    = (Ok receipt, st') →
  let h := PStr (sha256_hex (py_str c)) in
  let before := get_election_results e st in
  total_votes (get_election_results e st') = total_votes before + 1
  ∧ vote_distribution (get_election_results e st')
    = <[h := default 0 (vote_distribution before !! h) + 1]>
        (vote_distribution before)
  ∧ ∀ e', e' ≠ e →
      total_votes (get_election_results e' st')
      = total_votes (get_election_results e' st)
      ∧ vote_distribution (get_election_results e' st')
        = vote_distribution (get_election_results e' st).
Proof.
  intros (voter & block & -> & Hc & _ & _ & Hd & _)%cast_vote_success.
  assert (get "type" (data block) = PStr "vote") as Ht
    by by rewrite Hd.
  assert (get "election_id" (data block) = e) as He by by rewrite Hd.
  unfold get_election_results. simpl.
  rewrite !get_blocks_by_election_filter, Hc.
  split_and!.
  - rewrite (filter_vote_block_snoc e e _ _ Ht He), decide_True by done.
    rewrite length_app. simpl. lia.
  - rewrite (filter_vote_block_snoc e e _ _ Ht He), decide_True by done.
    unfold count_votes. rewrite foldl_snoc.
    rewrite Hd, make_vote_data_candidate_hash.
    by rewrite sha256_hex_truthy.
  - intros e' Hne. rewrite !get_blocks_by_election_filter, Hc.
    rewrite (filter_vote_block_snoc e' e _ _ Ht He), decide_False by done.
    by rewrite app_nil_r.
Qed.

Lemma cast_vote_then_election_results_witness :
  ∃ receipt,
    cast_vote_to_blockchain 8 (PStr "voterB") (PStr "e1") (PStr "cand2")
      "2024-01-15 10:32:00.000001" "ffeeddccbbaa99887766554433221100"
      "2024-01-15 10:32:00.000065" demo_state_1 = (Ok receipt, demo_state_2)
    ∧ total_votes (get_election_results (PStr "e1") demo_state_1) = 1
    ∧ total_votes (get_election_results (PStr "e1") demo_state_2) = 2
    ∧ total_votes (get_election_results (PStr "e2") demo_state_2) = 0.
Proof.
  eexists.
  edestruct (cast_vote_then_election_results 8 (PStr "voterB") (PStr "e1")
               (PStr "cand2") "2024-01-15 10:32:00.000001"
               "ffeeddccbbaa99887766554433221100" "2024-01-15 10:32:00.000065"
               demo_state_1 demo_state_2) as (Htotal & _ & Hother);
    [vm_compute; reflexivity |].
  assert (total_votes (get_election_results (PStr "e1") demo_state_1) = 1)
    as Hone by (vm_compute; reflexivity).
  split_and!; [vm_compute; reflexivity | exact Hone | |].
  - rewrite Htotal, Hone. reflexivity.
  - destruct (Hother (PStr "e2")) as [H2 _]; [discriminate |].
    rewrite H2. vm_compute. reflexivity.
Defined.



(** ** Looking a vote up again *)

Lemma chain_reachable_valid bc :
  chain_reachable bc → is_chain_valid bc = true.
Proof.
  intros [Hlink Hself]%chain_reachable_invariant.
  apply is_chain_valid_spec. intros i Hi. split; [| by apply Hlink].
  unfold self_hashed in Hself. rewrite Forall_lookup in Hself.
  apply (Hself i). apply list_lookup_lookup_total_lt. lia.
Qed.

(** X18. A vote that was cast can be verified: in a service reached by
    its own operations, [verify_vote] on the block hash of the receipt
    finds a block with that hash and reports the chain valid; when no
    earlier block has the same hash, the block found is the one the vote
    appended, with the index and timestamp of the receipt and the vote's
    data. *)
Theorem cast_vote_then_verify_vote fuel (v e c : pyval)
    (now_vote token now_block : string) (st st' : BlockchainService)
    (receipt : CastReceipt) :
  service_reachable st →
  cast_vote_to_blockchain fuel v e c now_vote token now_block st
    = (Ok receipt, st') →
  ∃ found,
    found ∈ chain (blockchain st')
    ∧ hash found = block_hash receipt
    ∧ verify_vote (PStr (block_hash receipt)) st'
      = Verified true (index found) (timestamp found) (data found)
          "Vote verified on blockchain"
    ∧ ((∀ b, b ∈ chain (blockchain st) → hash b ≠ block_hash receipt) →
       last (chain (blockchain st')) = Some found
       ∧ index found = block_index receipt
       ∧ timestamp found = receipt_timestamp receipt
       ∧ get "election_id" (data found) = e
       ∧ get "transaction_id" (data found) = transaction_hash receipt).
Proof.
  intros Hreach%service_reachable_chain Hcast.
  assert (chain_reachable (blockchain st')) as Hreach'.
  { pose proof Hcast as Hcases.
    apply cast_vote_cases in Hcases
      as [(voter & block & _ & Ha & _ & ->)|[Hr _]]; [| by edestruct Hr].
    by eapply reachable_add_block. }
  destruct (cast_vote_success _ _ _ _ _ _ _ _ _ _ Hcast)
    as (voter & block & _ & Hc & _ & -> & Hd & _).
  simpl. unfold verify_vote, get_block_by_hash.
  rewrite (chain_reachable_valid _ Hreach').
  destruct (get_block_by_hash_loop (chain (blockchain st')) (PStr (hash block)))
    as [found|] eqn:Hf.
  - destruct (get_block_by_hash_loop_Some _ _ _ Hf) as (i & Hi & [= Hh] & Hfirst).
    exists found. split_and!; [by eapply list_elem_of_lookup_2 | done | done |].
    intros Hfresh. rewrite Hc in Hi.
    destruct (decide (i < length (chain (blockchain st)))%nat) as [Hlt|Hge].
    + rewrite lookup_app_l in Hi by done.
      destruct (Hfresh found); [by eapply list_elem_of_lookup_2 | done].
    + rewrite lookup_app_r in Hi by lia.
      destruct (i - length (chain (blockchain st)))%nat; [| done].
      injection Hi as <-. rewrite Hc, last_snoc, Hd. done.
  - rewrite get_block_by_hash_loop_None in Hf.
    destruct (Hf block); [| done]. rewrite Hc. apply elem_of_app. right. left.
Qed.

Lemma cast_vote_then_verify_vote_witness :
  service_reachable demo_state_0
  ∧ ∃ receipt found,
      cast_vote_to_blockchain 8 (PStr "voterA") (PStr "e1") (PStr "cand1")
        "2024-01-15 10:31:00.000001" "00112233445566778899aabbccddeeff"
        "2024-01-15 10:31:00.000092" demo_state_0 = (Ok receipt, demo_state_1)
      ∧ (∀ b, b ∈ chain (blockchain demo_state_0) →
              hash b ≠ block_hash receipt)
      ∧ verify_vote (PStr (block_hash receipt)) demo_state_1
        = Verified true 1 "2024-01-15 10:31:00.000092" (data found)
            "Vote verified on blockchain"
      ∧ get "election_id" (data found) = PStr "e1".
Proof.
  split; [exact demo_service_0_reachable |].
  assert (∃ receipt,
            cast_vote_to_blockchain 8 (PStr "voterA") (PStr "e1")
              (PStr "cand1") "2024-01-15 10:31:00.000001"
              "00112233445566778899aabbccddeeff" "2024-01-15 10:31:00.000092"
              demo_state_0 = (Ok receipt, demo_state_1)
            ∧ block_hash receipt
              = "00541bf88bd8be5f3f4811c2b1e7f53bdfcd94c7eec33d0dcdbc336f5ec18791"
            ∧ block_index receipt = 1
            ∧ receipt_timestamp receipt = "2024-01-15 10:31:00.000092")
    as (receipt & Hcast & Hh & Hi & Ht)
    by (eexists; split; [vm_compute; reflexivity | done]).
  destruct (cast_vote_then_verify_vote 8 (PStr "voterA") (PStr "e1")
              (PStr "cand1") "2024-01-15 10:31:00.000001"
              "00112233445566778899aabbccddeeff" "2024-01-15 10:31:00.000092"
              demo_state_0 demo_state_1 receipt demo_service_0_reachable Hcast)
    as (found & _ & _ & Hv & Hnew).
  assert (∀ b, b ∈ chain (blockchain demo_state_0) →
               hash b ≠ block_hash receipt) as Hfresh.
  { intros b Hb Heq. rewrite Hh in Heq.
    eapply (proj1 (get_block_by_hash_loop_None
                     (chain (blockchain demo_state_0))
                     (PStr "00541bf88bd8be5f3f4811c2b1e7f53bdfcd94c7eec33d0dcdbc336f5ec18791")));
      [vm_compute; reflexivity | exact Hb | by rewrite Heq]. }
  destruct (Hnew Hfresh) as (_ & Hfi & Hft & He & _).
  exists receipt, found.
  split_and!; [exact Hcast | exact Hfresh | | exact He].
  by rewrite Hv, Hfi, Hft, Hi, Ht.
Defined.

(** ** Statistics and export *)

(** X19. [get_blockchain_stats] raises [IndexError] on a chain without
    blocks; in a service reached by its own operations it returns, with
    the number of blocks (at least one), a valid chain, the hash of the
    last block and difficulty 2. *)
Theorem get_blockchain_stats_outcomes (st : BlockchainService) :
  (chain (blockchain st) = [] → get_blockchain_stats st = Raise IndexError)
  ∧ (service_reachable st →
     ∃ latest,
       last (chain (blockchain st)) = Some latest
       ∧ 1 ≤ Z.of_nat (length (chain (blockchain st)))
       ∧ get_blockchain_stats st
         = Ok (mkStats (Z.of_nat (length (chain (blockchain st)))) true
                 (hash latest) 2)).
Proof.
  unfold get_blockchain_stats. rewrite get_latest_block_eq. split.
  - by intros ->.
  - intros Hreach%service_reachable_chain.
    destruct (chain_reachable_anchored _ Hreach) as (Hd & (g & rest & Hc & _) & _).
    rewrite (chain_reachable_valid _ Hreach), Hd.
    destruct (last (chain (blockchain st))) as [latest|] eqn:Hl.
    + exists latest. split_and!; [done | rewrite Hc; simpl; lia | done].
    + apply last_None in Hl. by rewrite Hc in Hl.
Qed.

Lemma get_blockchain_stats_outcomes_witness :
  get_blockchain_stats (mkService (mkChain [] 2)) = Raise IndexError
  ∧ service_reachable demo_state_2
  ∧ get_blockchain_stats demo_state_2
    = Ok (mkStats 3 true
            "000bbaf4db070cbdf037de3d6c1c359bdbe7e3a81262f4cbf8f197ee43a75144"
            2).
Proof.
  destruct (get_blockchain_stats_outcomes (mkService (mkChain [] 2)))
    as [Hempty _].
  destruct (get_blockchain_stats_outcomes demo_state_2) as [_ Hok].
  destruct (Hok demo_service_2_reachable) as (latest & Hl & _ & Hs).
  split_and!; [exact (Hempty eq_refl) | exact demo_service_2_reachable |].
  rewrite Hs. injection Hl as <-. reflexivity.
Defined.

Lemma of_pyval_inj : Inj (=) (=) Json.of_pyval.
Proof. intros [] [] [=]; by subst. Qed.

Lemma of_dict_inj : Inj (=) (=) Json.of_dict.
Proof.
  intros d1 d2 [= Heq]. apply map_to_list_inj.
  assert (Inj (=) (=) (prod_map (@id string) Json.of_pyval)) as Hinj.
  { intros [k1 v1] [k2 v2] [= -> Hv]. f_equal. by apply of_pyval_inj. }
  by rewrite (inj (fmap _) _ _ Heq).
Qed.

Lemma to_dict_inj : Inj (=) (=) to_dict.
Proof.
  intros [i1 t1 d1 p1 n1 h1] [i2 t2 d2 p2 n2 h2] [= -> -> Hd -> -> ->].
  f_equal. apply of_dict_inj. unfold Json.of_dict. by f_equal.
Qed.

(** X20. The export loses nothing: it has one record per block, in chain
    order, and two services with the same export have the same chain,
    block for block and field for field. *)
Theorem export_blockchain_faithful (st1 st2 : BlockchainService) :
  length (export_blockchain st1) = length (chain (blockchain st1))
  ∧ (∀ (i : nat) b, chain (blockchain st1) !! i = Some b →
       export_blockchain st1 !! i = Some (to_dict b))
  ∧ (export_blockchain st1 = export_blockchain st2 →
     chain (blockchain st1) = chain (blockchain st2)).
Proof.
  unfold export_blockchain. split_and!.
  - apply length_fmap.
  - intros i b Hb. by rewrite list_lookup_fmap, Hb.
  - intros Heq. pose proof to_dict_inj. by apply (inj (fmap to_dict)).
Qed.

(** X21. The ledger is append-only over any run: whatever operations of
    the service are called, in whatever order and with whatever outcome,
    the chain at the start is a prefix of the chain at the end (no block
    is dropped, moved or rewritten), the difficulty is the same, and the
    export at the start is a prefix of the export at the end. *)
Theorem service_steps_append_only (st st' : BlockchainService) :
  service_steps st st' →
  chain (blockchain st) `prefix_of` chain (blockchain st')
  ∧ difficulty (blockchain st') = difficulty (blockchain st)
  ∧ export_blockchain st `prefix_of` export_blockchain st'.
Proof.
  intros Hsteps.
  enough (chain (blockchain st) `prefix_of` chain (blockchain st')
          ∧ difficulty (blockchain st') = difficulty (blockchain st))
    as [[k Hk] Hd].
  { split_and!; [by exists k | done |].
    unfold export_blockchain. rewrite Hk, fmap_app. by eexists. }
  induction Hsteps as [st|fuel req st st1 r st2 _ [IHp IHd] Hs]; [done |].
  replace st2 with (serve fuel req st1).2 by by rewrite Hs.
  destruct (serve_chain fuel req st1) as [->|(d & now & ->)]; [done |].
  destruct (add_block fuel d now (blockchain st1)) as [r0 bc'] eqn:Ha.
  apply add_block_cases in Ha as [(latest & mined & _ & _ & _ & ->)|[_ ->]];
    [| done].
  simpl. split; [| done]. by apply prefix_app_r.
Qed.

Lemma service_steps_append_only_witness :
  service_steps demo_state_0 demo_state_2
  ∧ chain (blockchain demo_state_0) `prefix_of` chain (blockchain demo_state_2)
  ∧ length (chain (blockchain demo_state_2)) = 3%nat.
Proof.
  assert (service_steps demo_state_0 demo_state_2) as Hsteps.
  { eapply (steps_more 8 demo_vote_B _ demo_state_1);
      [| vm_compute; reflexivity].
    eapply (steps_more 8 demo_vote_A _ demo_state_0);
      [apply steps_none | vm_compute; reflexivity]. }
  destruct (service_steps_append_only _ _ Hsteps) as (Hp & _ & _).
  split_and!; [exact Hsteps | exact Hp | reflexivity].
Defined.

(** ** Selecting the blocks of an election *)

(** X22. [get_blocks_by_election] returns the vote blocks of the election
    and nothing else, in chain order: a block is returned exactly when it
    is in the chain, its [type] is ["vote"] and its [election_id] equals
    the argument; the genesis block of a chain built by the constructor is
    never returned; and since a missing key reads as [None], asking for
    election [None] returns the vote blocks that have no [election_id]. *)
Theorem get_blocks_by_election_selects (e : pyval) (bc : VotingBlockchain) :
  get_blocks_by_election e bc `sublist_of` chain bc
  ∧ (∀ b, b ∈ get_blocks_by_election e bc ↔
          b ∈ chain bc ∧ get "type" (data b) = PStr "vote"
          ∧ get "election_id" (data b) = e)
  ∧ (chain_reachable bc → ∀ g, chain bc !! 0%nat = Some g →
       g ∉ get_blocks_by_election e bc)
  ∧ (∀ b, b ∈ chain bc → data b !! "type" = Some (PStr "vote") →
       data b !! "election_id" = None →
       b ∈ get_blocks_by_election PNone bc).
Proof.
  rewrite get_blocks_by_election_filter. split_and!.
  - apply sublist_filter.
  - intros b. rewrite list_elem_of_filter. unfold vote_block_of. tauto.
  - intros (_ & (g0 & rest & Hc & _ & _ & Hd) & _)%chain_reachable_anchored g Hg.
    rewrite Hc in Hg. injection Hg as <-.
    intros [Hv _]%list_elem_of_filter. by eapply genesis_not_vote.
  - intros b Hin Ht He. rewrite get_blocks_by_election_filter.
    apply list_elem_of_filter. split; [| done].
    unfold vote_block_of, get. by rewrite Ht, He.
Qed.

Lemma get_blocks_by_election_selects_witness :
  let bc := blockchain demo_state_2 in
  chain_reachable bc
  ∧ (∃ g, chain bc !! 0%nat = Some g
          ∧ g ∉ get_blocks_by_election (PStr "e1") bc)
  ∧ length (get_blocks_by_election (PStr "e1") bc) = 2%nat.
Proof.
  intros bc.
  assert (chain_reachable bc) as Hr
    by exact (service_reachable_chain _ demo_service_2_reachable).
  destruct (get_blocks_by_election_selects (PStr "e1") bc)
    as (_ & _ & Hgen & _).
  split_and!; [exact Hr | | vm_compute; reflexivity].
  exists (chain bc !!! 0%nat). split; [reflexivity |].
  exact (Hgen Hr _ eq_refl).
Defined.

(** ** The serialization can be read back *)

Lemma read_string_escape_char c tail :
  read_string (Json.escape_char c +:+ tail) = read_more c (read_string tail).
Proof.
  destruct c as [[] [] [] [] [] [] [] []]; reflexivity.
Qed.

Lemma read_string_escape s rest :
  read_string (Json.escape s +:+ String Json.dquote rest) = Some (s, rest).
Proof.
  induction s as [|c s IH]; [reflexivity |].
  change (Json.escape (String c s))
    with (Json.escape_char c +:+ Json.escape s).
  by rewrite string_app_assoc, read_string_escape_char, IH.
Qed.

Lemma quote_app s rest :
  Json.quote s +:+ rest
  = String Json.dquote (Json.escape s +:+ String Json.dquote rest).
Proof.
  unfold Json.quote.
  change (String Json.dquote (Json.escape s +:+ String Json.dquote "") +:+ rest)
    with (String Json.dquote
            ((Json.escape s +:+ String Json.dquote "") +:+ rest)).
  by rewrite string_app_assoc.
Qed.

(** A quoted string ends where its closing quote is. *)
Lemma quote_app_inj s1 s2 r1 r2 :
  Json.quote s1 +:+ r1 = Json.quote s2 +:+ r2 → s1 = s2 ∧ r1 = r2.
Proof.
  rewrite !quote_app. intros [= Heq].
  apply (f_equal read_string) in Heq.
  rewrite !read_string_escape in Heq. by injection Heq as -> ->.
Qed.

Lemma numeric_app a b : numeric (a +:+ b) = numeric a && numeric b.
Proof.
  induction a as [|c a IH]; [done |].
  change (numeric (String c (a +:+ b)) = numeric (String c a) && numeric b).
  simpl. by rewrite IH, andb_assoc.
Qed.

Lemma pretty_N_char_numeric x : is_numeric (pretty_N_char x) = true.
Proof. unfold pretty_N_char. by repeat case_match. Qed.

Lemma pretty_N_go_numeric x s :
  numeric s = true → numeric (pretty_N_go x s) = true.
Proof.
  revert s. induction (N.lt_wf_0 x) as [x _ IH]; intros s Hs.
  assert (x = 0 ∨ 0 < x)%N as [->|Hx] by lia; [by rewrite pretty_N_go_0 |].
  rewrite pretty_N_go_step by done. apply IH; [by apply N.div_lt |].
  simpl. by rewrite pretty_N_char_numeric, Hs.
Qed.

Lemma pretty_N_go_grows x s :
  (String.length s ≤ String.length (pretty_N_go x s))%nat.
Proof.
  revert s. induction (N.lt_wf_0 x) as [x _ IH]; intros s.
  assert (x = 0 ∨ 0 < x)%N as [->|Hx] by lia; [by rewrite pretty_N_go_0 |].
  rewrite pretty_N_go_step by done.
  etrans; [| apply IH; by apply N.div_lt]. simpl. lia.
Qed.

(** A numeral is made of digits and at most a sign, and is not empty. *)
Lemma pretty_Z_numeric (z : Z) :
  numeric (pretty z) = true ∧ pretty z ≠ EmptyString.
Proof.
  assert (∀ p : positive,
            numeric (pretty (N.pos p)) = true
            ∧ pretty (N.pos p) ≠ EmptyString) as Hpos.
  { intros p. unfold pretty, pretty_N. rewrite decide_False by done. split.
    - by apply pretty_N_go_numeric.
    - rewrite pretty_N_go_step by done. intros Hempty.
      pose proof (pretty_N_go_grows (N.pos p `div` 10)
                    (String (pretty_N_char (N.pos p `mod` 10)) "")) as Hlen.
      rewrite Hempty in Hlen. simpl in Hlen. lia. }
  destruct z as [|p|p].
  - done.
  - apply Hpos.
  - change (pretty (Z.neg p)) with ("-" +:+ pretty (N.pos p)).
    split; [| done]. rewrite numeric_app. by rewrite (proj1 (Hpos p)).
Qed.

Lemma delimited_head s :
  delimited s → ∃ c rest, s = String c rest ∧ is_numeric c = false
                          ∧ N_of_ascii c ≠ 34%N.
Proof. intros [rest [->| ->]]; eexists _, _; by split_and!. Qed.

(** Two numerals, each followed by a delimiter: the texts agree only if
    the numerals and what follows them agree. *)
Lemma numeric_app_inj d1 d2 t1 t2 :
  numeric d1 = true → numeric d2 = true → delimited t1 → delimited t2 →
  d1 +:+ t1 = d2 +:+ t2 → d1 = d2 ∧ t1 = t2.
Proof.
  intros H1 H2 (c1 & r1 & -> & Hc1 & _)%delimited_head
    (c2 & r2 & -> & Hc2 & _)%delimited_head.
  revert d2 H1 H2. induction d1 as [|x d1 IH]; intros [|y d2] H1 H2 Heq.
  - done.
  - injection Heq as -> _. simpl in H2. apply andb_true_iff in H2 as [H2 _].
    congruence.
  - injection Heq as -> _. simpl in H1. apply andb_true_iff in H1 as [H1 _].
    congruence.
  - injection Heq as -> Heq. simpl in H1, H2.
    apply andb_true_iff in H1 as [_ H1]. apply andb_true_iff in H2 as [_ H2].
    destruct (IH d2 H1 H2 Heq) as [-> ?]. done.
Qed.

Lemma string_head_app c r t : String c r +:+ t = String c (r +:+ t).
Proof. done. Qed.

(** Two values of a data object, each followed by a delimiter. *)
Lemma dumps_pyval_app_inj v1 v2 t1 t2 :
  delimited t1 → delimited t2 →
  Json.dumps (Json.of_pyval v1) +:+ t1 = Json.dumps (Json.of_pyval v2) +:+ t2 →
  v1 = v2 ∧ t1 = t2.
Proof.
  intros Ht1 Ht2.
  assert (∀ (z : Z) t,
            ∃ c r, pretty z +:+ t = String c r ∧ is_numeric c = true)
    as Hnum.
  { intros z t. destruct (pretty_Z_numeric z) as [Hn Hne].
    destruct (pretty z) as [|c r]; [done |]. exists c, (r +:+ t).
    split; [done |]. simpl in Hn. by apply andb_true_iff in Hn as [? _]. }
  destruct v1 as [|z1|s1], v2 as [|z2|s2]; simpl.
  - intros Heq. split; [done |]. by simplify_eq.
  - destruct (Hnum z2 t2) as (c & r & -> & Hc). intros [= <- _]. done.
  - rewrite quote_app. intros [=].
  - destruct (Hnum z1 t1) as (c & r & -> & Hc). intros [= -> _]. done.
  - intros Heq.
    destruct (numeric_app_inj (pretty z1) (pretty z2) t1 t2) as [Hz ->];
      try done; try apply pretty_Z_numeric.
    split; [| done]. f_equal. by apply (inj pretty).
  - destruct (Hnum z1 t1) as (c & r & -> & Hc). rewrite quote_app.
    intros [= -> _]. done.
  - rewrite quote_app. intros [=].
  - destruct (Hnum z2 t2) as (c & r & -> & Hc). rewrite quote_app.
    intros [= <- _]. done.
  - intros [-> ->]%quote_app_inj. done.
Qed.

Lemma items_text_cons x l rest :
  items_text (x :: l) rest
  = render_kv x +:+ match l with
                    | [] => "}" +:+ rest
                    | _ :: _ => ", " +:+ items_text l rest
                    end.
Proof.
  unfold items_text. destruct l as [|y l]; [done |].
  change (Json.join ", " (render_kv <$> x :: y :: l))
    with (render_kv x +:+ ", " +:+ Json.join ", " (render_kv <$> y :: l)).
  by rewrite !string_app_assoc.
Qed.

Lemma items_tail_delimited (l : list (string * pyval)) rest :
  delimited match l with
            | [] => "}" +:+ rest
            | _ :: _ => ", " +:+ items_text l rest
            end.
Proof.
  destruct l; [exists rest; by right |].
  eexists. left. reflexivity.
Qed.

Lemma render_kv_app_inj x1 x2 t1 t2 :
  delimited t1 → delimited t2 →
  render_kv x1 +:+ t1 = render_kv x2 +:+ t2 → x1 = x2 ∧ t1 = t2.
Proof.
  intros Ht1 Ht2. destruct x1 as [k1 v1], x2 as [k2 v2]. unfold render_kv.
  cbn [fst snd]. rewrite !string_app_assoc.
  intros [-> Heq]%quote_app_inj.
  apply (inj (String.app ": ")) in Heq.
  by apply dumps_pyval_app_inj in Heq as [-> ->].
Qed.

(** The text of the items determines the items. *)
Lemma items_text_inj l1 l2 r1 r2 :
  items_text l1 r1 = items_text l2 r2 → l1 = l2 ∧ r1 = r2.
Proof.
  revert l2. induction l1 as [|x1 l1 IH]; intros [|x2 l2].
  - unfold items_text. intros Heq. split; [done |].
    by apply (inj (String.app "}")) in Heq.
  - rewrite items_text_cons. unfold items_text at 1, render_kv.
    rewrite !string_app_assoc, quote_app. intros [=].
  - rewrite items_text_cons. unfold items_text at 1, render_kv.
    rewrite !string_app_assoc, quote_app. intros [=].
  - rewrite !items_text_cons.
    intros [-> Htail]%render_kv_app_inj; try apply items_tail_delimited.
    destruct l1 as [|y1 l1], l2 as [|y2 l2]; try discriminate Htail.
    + apply (inj (String.app "}")) in Htail. by subst.
    + apply (inj (String.app ", ")) in Htail.
      by destruct (IH _ Htail) as [-> ->].
Qed.

Lemma of_dict_text (d : dict) rest :
  ∃ l, l ≡ₚ map_to_list d
       ∧ Json.dumps (Json.of_dict d) +:+ rest = "{" +:+ items_text l rest.
Proof.
  unfold Json.of_dict. rewrite dumps_obj, <- list_fmap_compose.
  set (g := prod_map id Json.dumps ∘ prod_map id Json.of_pyval).
  destruct (sort_items_sorted (g <$> map_to_list d)) as [_ Hperm].
  change (g <$> map_to_list d) with (map g (map_to_list d)) in Hperm.
  apply Permutation_map_inv in Hperm as (l & Hl & Hp).
  exists l. split; [done |].
  change (g <$> map_to_list d) with (map g (map_to_list d)). rewrite Hl.
  change (map g l) with (g <$> l). rewrite <- list_fmap_compose.
  unfold items_text. rewrite !string_app_assoc. by do 3 f_equal.
Qed.

(** A serialized data object, whatever follows it, determines the
    dictionary. *)
Lemma of_dict_app_inj (d1 d2 : dict) r1 r2 :
  Json.dumps (Json.of_dict d1) +:+ r1 = Json.dumps (Json.of_dict d2) +:+ r2 →
  d1 = d2 ∧ r1 = r2.
Proof.
  destruct (of_dict_text d1 r1) as (l1 & Hp1 & ->).
  destruct (of_dict_text d2 r2) as (l2 & Hp2 & ->).
  intros Heq. apply (inj (String.app "{")) in Heq.
  apply items_text_inj in Heq as [-> ->]. split; [| done].
  apply map_to_list_inj. by rewrite <- Hp1, <- Hp2.
Qed.

Lemma pretty_app_inj (z1 z2 : Z) t1 t2 :
  delimited t1 → delimited t2 →
  pretty z1 +:+ t1 = pretty z2 +:+ t2 → z1 = z2 ∧ t1 = t2.
Proof.
  intros Ht1 Ht2 Heq.
  destruct (numeric_app_inj (pretty z1) (pretty z2) t1 t2) as [Hz ->];
    try done; try apply pretty_Z_numeric.
  split; [| done]. by apply (inj pretty).
Qed.

Lemma canonical_json_inj b1 b2 :
  canonical_json b1 = canonical_json b2 →
  index b1 = index b2 ∧ timestamp b1 = timestamp b2 ∧ data b1 = data b2
  ∧ previous_hash b1 = previous_hash b2 ∧ nonce b1 = nonce b2.
Proof.
  unfold canonical_json. intros Heq.
  apply (inj (String.app "{")) in Heq.
  apply quote_app_inj in Heq as [_ Heq].
  apply (inj (String.app ": ")) in Heq.
  apply of_dict_app_inj in Heq as [Hd Heq].
  apply (inj (String.app ", ")) in Heq.
  apply quote_app_inj in Heq as [_ Heq].
  apply (inj (String.app ": ")) in Heq.
  apply pretty_app_inj in Heq as [Hi Heq];
    [| eexists; left; reflexivity ..].
  apply (inj (String.app ", ")) in Heq.
  apply quote_app_inj in Heq as [_ Heq].
  apply (inj (String.app ": ")) in Heq.
  apply pretty_app_inj in Heq as [Hn Heq];
    [| eexists; left; reflexivity ..].
  apply (inj (String.app ", ")) in Heq.
  apply quote_app_inj in Heq as [_ Heq].
  apply (inj (String.app ": ")) in Heq.
  apply quote_app_inj in Heq as [Hp Heq].
  apply (inj (String.app ", ")) in Heq.
  apply quote_app_inj in Heq as [_ Heq].
  apply (inj (String.app ": ")) in Heq.
  apply quote_app_inj in Heq as [Ht _].
  done.
Qed.

(** X23. The text that is hashed determines the block: two blocks give
    [calculate_hash] the same text to digest exactly when they agree on
    index, timestamp, data, previous hash and nonce.  The stored hash is
    not part of the text. *)
Theorem hashed_text_determines_fields (b1 b2 : Block) :
  Json.dumps (block_json b1) = Json.dumps (block_json b2)
  ↔ same_hashed_fields b1 b2.
Proof.
  split.
  - rewrite !block_json_canonical. intros Heq.
    by apply canonical_json_inj in Heq.
  - intros (Hi & Ht & Hd & Hp & Hn). unfold block_json.
    by rewrite Hi, Ht, Hd, Hp, Hn.
Qed.

(** X24. Tamper evidence, as far as the code gives it.  In a chain that
    validates, putting in the place of a block after the first a block
    with the same stored hash but another index, timestamp, data, previous
    hash or nonce either makes [is_chain_valid] false, or the two blocks'
    hashed texts are different strings with the same SHA-256 digest. *)
Theorem field_change_detected_or_collision (bc : VotingBlockchain)
    (i : nat) (b b' : Block) :
  is_chain_valid bc = true →
  (0 < i)%nat →
  chain bc !! i = Some b →
  hash b' = hash b →
  ¬ same_hashed_fields b b' →
  is_chain_valid (mkChain (<[i := b']> (chain bc)) (difficulty bc)) = false
  ∨ (canonical_json b ≠ canonical_json b'
     ∧ sha256_hex (canonical_json b) = sha256_hex (canonical_json b')).
Proof.
  intros Hv Hi Hb Hh Hdiff.
  destruct (is_chain_valid (mkChain (<[i := b']> (chain bc)) (difficulty bc)))
    eqn:Hv'; [right | by left].
  rewrite is_chain_valid_spec in Hv, Hv'. simpl in Hv'.
  rewrite length_insert in Hv'.
  pose proof (lookup_lt_Some _ _ _ Hb) as Hlt.
  destruct (Hv i) as [Hself _]; [lia |].
  destruct (Hv' i) as [Hself' _]; [lia |].
  rewrite list_lookup_total_insert_eq in Hself' by done.
  rewrite (list_lookup_total_correct _ _ _ Hb) in Hself.
  unfold calculate_hash in Hself, Hself'.
  rewrite block_json_canonical in Hself, Hself'. split.
  - intros Heq. by apply Hdiff, canonical_json_inj.
  - congruence.
Qed.

Lemma field_change_detected_or_collision_witness :
  let bc := blockchain demo_state_2 in
  let b := chain bc !!! 1%nat in
  let b' := with_nonce (nonce b + 1) b in
  is_chain_valid bc = true
  ∧ chain bc !! 1%nat = Some b
  ∧ hash b' = hash b
  ∧ ¬ same_hashed_fields b b'
  ∧ (is_chain_valid (mkChain (<[1%nat := b']> (chain bc)) 2) = false
     ∨ (canonical_json b ≠ canonical_json b'
        ∧ sha256_hex (canonical_json b) = sha256_hex (canonical_json b'))).
Proof.
  intros bc b b'.
  assert (is_chain_valid bc = true) as Hv by (vm_compute; reflexivity).
  assert (chain bc !! 1%nat = Some b) as Hb by reflexivity.
  assert (hash b' = hash b) as Hh by reflexivity.
  assert (¬ same_hashed_fields b b') as Hdiff.
  { intros (_ & _ & _ & _ & Hn). simpl in Hn. lia. }
  split_and!; [exact Hv | exact Hb | exact Hh | exact Hdiff |].
  exact (field_change_detected_or_collision bc 1 b b' Hv (Nat.lt_0_1) Hb Hh
           Hdiff).
Defined.

(** ** The view that casts a vote *)

(** The runs of the view, branch by branch: it answers without touching
    anything, or it has called the ledger. *)
Lemma api_cast_vote_cases {DB} (orm : Orm DB) fuel request now now_vote token
    now_block db st r db' st' :
  api_cast_vote orm fuel request now now_vote token now_block (db, st)
    = (r, (db', st')) →
  (db' = db ∧ st' = st
   ∧ ∀ bh th rh ts, r ≠ Ok (VoteCastSuccessfully bh th rh ts))
  ∨ (method request = "POST"
     ∧ truthy (session_voter_id request) = true
     ∧ ∃ e c voter election candidate ledger_result,
         body_fields request = Returned (e, c)
         ∧ Voter_get orm (session_voter_id request) db = Returned voter
         ∧ Election_get orm e db = Returned election
         ∧ Candidate_get orm c db = Returned candidate
         ∧ is_active election now = true
         ∧ Vote_exists orm voter election db = false
         ∧ candidate_constituency candidate = voter_constituency voter
         ∧ cast_vote_to_blockchain fuel (PStr (aadhaar_number voter))
             (PInt (election_pk election)) (PInt (candidate_pk candidate))
             now_vote token now_block st = (ledger_result, st')
         ∧ match ledger_result with
           | OutOfFuel => r = OutOfFuel ∧ db' = db
           | Raise err =>
               r = Ok (FailedToCastVote (LedgerRaised err)) ∧ db' = db
           | Ok receipt =>
               success receipt = true
               ∧ match Vote_create orm request voter election candidate
                         (block_hash receipt) (transaction_hash receipt) db
                 with
                 | Thrown m =>
                     r = Ok (FailedToCastVote (CollaboratorRaised m))
                     ∧ db' = db
                 | Returned (created, created_iso, db1) =>
                     match Voter_save orm (mark_voted voter) db1 with
                     | Thrown m =>
                         r = Ok (FailedToCastVote (CollaboratorRaised m))
                         ∧ db' = db1
                     | Returned db2 =>
                         r = Ok (VoteCastSuccessfully (block_hash receipt)
                                   (transaction_hash receipt)
                                   (generate_receipt_hash
                                      (mkVote voter election candidate
                                         (block_hash receipt)
                                         (transaction_hash receipt)
                                         created created_iso))
                                   created_iso)
                         ∧ db' = db2
                     end
                 end
           end).
Proof.
  unfold api_cast_vote. cbn [fst snd].
  destruct (bool_decide (method request = "POST")) eqn:Hm; cbn [negb];
    [apply bool_decide_eq_true in Hm | intros [= <- <- <-]; by left].
  destruct (truthy (session_voter_id request)) eqn:Hs; cbn [negb];
    [| intros [= <- <- <-]; by left].
  destruct (body_fields request) as [[e c]|m] eqn:Hb;
    [| intros [= <- <- <-]; by left].
  destruct (Voter_get orm _ db) as [voter|m] eqn:Hv;
    [| intros [= <- <- <-]; by left].
  destruct (Election_get orm e db) as [election|m] eqn:He;
    [| intros [= <- <- <-]; by left].
  destruct (Candidate_get orm c db) as [candidate|m] eqn:Hc;
    [| intros [= <- <- <-]; by left].
  destruct (is_active election now) eqn:Ha; cbn [negb];
    [| intros [= <- <- <-]; by left].
  destruct (Vote_exists orm voter election db) eqn:Hx;
    [intros [= <- <- <-]; by left |].
  destruct (bool_decide (candidate_constituency candidate
                         = voter_constituency voter)) eqn:Hk; cbn [negb];
    [apply bool_decide_eq_true in Hk | intros [= <- <- <-]; by left].
  destruct (cast_vote_to_blockchain _ _ _ _ _ _ _ st) as [lr st1] eqn:Hcast.
  intros Hrun. right. split_and!; [done | done |].
  exists e, c, voter, election, candidate, lr.
  assert (st1 = st') as <-.
  { destruct lr as [receipt|err|]; [| by injection Hrun | by injection Hrun].
    destruct (negb (success receipt)); [by injection Hrun |].
    destruct (Vote_create _ _ _ _ _ _ _ _) as [[[? ?] ?]|?];
      [| by injection Hrun].
    destruct (Voter_save _ _ _); by injection Hrun. }
  split_and!; try done.
  destruct lr as [receipt|err|];
    [| by injection Hrun as <- <- | by injection Hrun as <- <-].
  assert (success receipt = true) as Hsucc.
  { apply cast_vote_cases in Hcast
      as [(? & ? & _ & _ & [= ->] & _)|[Hr _]]; [done | by edestruct Hr]. }
  rewrite Hsucc in Hrun. cbn [negb] in Hrun. split; [done |].
  destruct (Vote_create _ _ _ _ _ _ _ _) as [[[created iso] db1]|m];
    [| by injection Hrun as <- <-].
  destruct (Voter_save _ _ _) as [db2|m]; by injection Hrun as <- <-.
Qed.

Lemma cast_vote_then_has_voter_voted_aux fuel voter e c now_vote token
    now_block st st' receipt :
  cast_vote_to_blockchain fuel (PStr voter) e c now_vote token now_block st
    = (Ok receipt, st') →
  length (chain (blockchain st')) = S (length (chain (blockchain st)))
  ∧ has_voter_voted (PStr voter) e st' = Ok true.
Proof.
  intros (voter' & block & [= <-] & Hc & _ & _ & Hd & _)%cast_vote_success.
  split; [rewrite Hc, length_app; simpl; lia |].
  rewrite has_voter_voted_eq, Hc.
  rewrite (filter_vote_block_snoc e e) by by rewrite Hd.
  rewrite decide_True by done. rewrite has_voter_voted_loop_app. simpl.
  rewrite Hd, make_vote_data_voter_hash. unfold py_eq.
  rewrite bool_decide_eq_true_2 by done. by rewrite orb_true_r.
Qed.

(** X25. The view writes only after all its checks: if a call changes the
    ledger or the database, the request was a POST with a voter id in the
    session and a readable body, the voter, the election and the candidate
    were found, the election was active, no vote row existed for the voter
    and the election, the candidate stood in the voter's constituency, and
    [cast_vote_to_blockchain] returned a receipt. *)
Theorem api_cast_vote_writes_after_checks {DB} (orm : Orm DB) fuel request now
    now_vote token now_block (db db' : DB) (st st' : BlockchainService)
    (r : result JsonResponse) :
  api_cast_vote orm fuel request now now_vote token now_block (db, st)
    = (r, (db', st')) →
  st' ≠ st ∨ db' ≠ db →
  method request = "POST"
  ∧ truthy (session_voter_id request) = true
  ∧ ∃ e c voter election candidate receipt,
      body_fields request = Returned (e, c)
      ∧ Voter_get orm (session_voter_id request) db = Returned voter
      ∧ Election_get orm e db = Returned election
      ∧ Candidate_get orm c db = Returned candidate
      ∧ is_active election now = true
      ∧ Vote_exists orm voter election db = false
      ∧ candidate_constituency candidate = voter_constituency voter
      ∧ cast_vote_to_blockchain fuel (PStr (aadhaar_number voter))
          (PInt (election_pk election)) (PInt (candidate_pk candidate))
          now_vote token now_block st = (Ok receipt, st').
Proof.
  intros Hrun Hchanged.
  apply api_cast_vote_cases in Hrun
    as [(-> & -> & _)|(Hm & Hs & e & c & voter & election & candidate & lr
                       & Hb & Hv & He & Hc & Ha & Hx & Hk & Hcast & Hlr)];
    [by destruct Hchanged |].
  split_and!; [done | done |].
  exists e, c, voter, election, candidate.
  destruct lr as [receipt|err|].
  - by exists receipt.
  - destruct Hlr as [_ ->].
    apply cast_vote_cases in Hcast as [(? & ? & _ & _ & [=] & _)|[_ ->]].
    by destruct Hchanged.
  - destruct Hlr as [_ ->].
    apply cast_vote_cases in Hcast as [(? & ? & _ & _ & [=] & _)|[_ ->]].
    by destruct Hchanged.
Qed.

(** X26. No roll-back.  When the view answers "Failed to cast vote" and
    the ledger has changed, the vote is on the ledger all the same: the
    chain has one more block, [has_voter_voted] is true for the voter's
    Aadhaar number and the election, and the failure was raised by
    [Vote.objects.create], with the database untouched, or by
    [voter.save()]. *)
Theorem api_cast_vote_does_not_roll_back {DB} (orm : Orm DB) fuel request now
    now_vote token now_block (db db' : DB) (st st' : BlockchainService)
    (c : cause) :
  api_cast_vote orm fuel request now now_vote token now_block (db, st)
    = (Ok (FailedToCastVote c), (db', st')) →
  st' ≠ st →
  ∃ voter election candidate receipt m,
    c = CollaboratorRaised m
    ∧ length (chain (blockchain st')) = S (length (chain (blockchain st)))
    ∧ has_voter_voted (PStr (aadhaar_number voter))
        (PInt (election_pk election)) st' = Ok true
    ∧ Vote_exists orm voter election db = false
    ∧ (Vote_create orm request voter election candidate (block_hash receipt)
         (transaction_hash receipt) db = Thrown m ∧ db' = db
       ∨ ∃ created created_iso,
           Vote_create orm request voter election candidate
             (block_hash receipt) (transaction_hash receipt) db
           = Returned (created, created_iso, db')
           ∧ Voter_save orm (mark_voted voter) db' = Thrown m).
Proof.
  intros Hrun Hchanged.
  apply api_cast_vote_cases in Hrun
    as [(_ & -> & _)|(_ & _ & e & c0 & voter & election & candidate & lr
                      & _ & _ & _ & _ & _ & Hx & _ & Hcast & Hlr)];
    [done |].
  destruct lr as [receipt|err|].
  - destruct Hlr as [_ Hlr].
    destruct (cast_vote_then_has_voter_voted_aux _ _ _ _ _ _ _ _ _ _ Hcast)
      as [Hlen Hvoted].
    destruct (Vote_create _ _ _ _ _ _ _ _) as [[[created iso] db1]|m] eqn:Hcr.
    + destruct (Voter_save _ _ _) as [db2|m] eqn:Hsave;
        destruct Hlr as [[= ->] ->].
      exists voter, election, candidate, receipt, m.
      split_and!; try done. right. by exists created, iso.
    + destruct Hlr as [[= ->] ->].
      exists voter, election, candidate, receipt, m.
      split_and!; try done. by left.
  - apply cast_vote_cases in Hcast as [(? & ? & _ & _ & [=] & _)|[_ ->]].
    done.
  - by destruct Hlr as [[=] _].
Qed.

Lemma api_cast_vote_writes_after_checks_witness :
  ∃ r st',
    api_cast_vote (demo_orm false) 8 demo_request 150
      "2024-01-15 10:40:00.000001" "000102030405060708090a0b0c0d0e0f"
      "2024-01-15 10:40:00.000052" ([], demo_state_0)
    = (r, ([(1, 1)], st'))
    ∧ [(1, 1)] ≠ ([] : list (Z * Z))
    ∧ is_active demo_election 150 = true
    ∧ ∃ receipt,
        cast_vote_to_blockchain 8 (PStr "123412341234") (PInt 1) (PInt 7)
          "2024-01-15 10:40:00.000001" "000102030405060708090a0b0c0d0e0f"
          "2024-01-15 10:40:00.000052" demo_state_0 = (Ok receipt, st').
Proof.
  assert (∃ r st',
            api_cast_vote (demo_orm false) 8 demo_request 150
              "2024-01-15 10:40:00.000001" "000102030405060708090a0b0c0d0e0f"
              "2024-01-15 10:40:00.000052" ([], demo_state_0)
            = (r, ([(1, 1)], st'))) as (r & st' & Hrun)
    by (eexists _, _; vm_compute; reflexivity).
  exists r, st'.
  assert ([(1, 1)] ≠ ([] : list (Z * Z))) as Hdb by discriminate.
  destruct (api_cast_vote_writes_after_checks (demo_orm false) 8 demo_request
              150 "2024-01-15 10:40:00.000001"
              "000102030405060708090a0b0c0d0e0f" "2024-01-15 10:40:00.000052"
              [] [(1, 1)] demo_state_0 st' r Hrun (or_intror Hdb))
    as (_ & _ & e & c & voter & election & candidate & receipt & Hb & Hv & He
        & Hc & _ & _ & _ & Hcast).
  injection Hb as <- <-.
  injection Hv as <-. injection He as <-. injection Hc as <-.
  split_and!; [exact Hrun | exact Hdb | reflexivity |].
  by exists receipt.
Defined.

Lemma api_cast_vote_does_not_roll_back_witness :
  ∃ st' m,
    api_cast_vote (demo_orm true) 8 demo_request 150
      "2024-01-15 10:40:00.000001" "000102030405060708090a0b0c0d0e0f"
      "2024-01-15 10:40:00.000052" ([], demo_state_0)
    = (Ok (FailedToCastVote (CollaboratorRaised m)), ([], st'))
    ∧ st' ≠ demo_state_0
    ∧ length (chain (blockchain st'))
      = S (length (chain (blockchain demo_state_0)))
    ∧ has_voter_voted (PStr "123412341234") (PInt 1) st' = Ok true.
Proof.
  assert (∃ st' m,
            api_cast_vote (demo_orm true) 8 demo_request 150
              "2024-01-15 10:40:00.000001" "000102030405060708090a0b0c0d0e0f"
              "2024-01-15 10:40:00.000052" ([], demo_state_0)
            = (Ok (FailedToCastVote (CollaboratorRaised m)), ([], st'))
            ∧ length (chain (blockchain st')) = 2%nat
            ∧ has_voter_voted (PStr "123412341234") (PInt 1) st' = Ok true)
    as (st' & m & Hrun & Hlen & Hvoted)
    by (eexists _, _; split_and!; vm_compute; reflexivity).
  exists st', m.
  assert (st' ≠ demo_state_0) as Hne.
  { intros ->. discriminate Hlen. }
  destruct (api_cast_vote_does_not_roll_back (demo_orm true) 8 demo_request
              150 "2024-01-15 10:40:00.000001"
              "000102030405060708090a0b0c0d0e0f" "2024-01-15 10:40:00.000052"
              [] [] demo_state_0 st' _ Hrun Hne)
    as (voter & election & candidate & receipt & m' & _ & Hgrew & _).
  split_and!; [exact Hrun | exact Hne | exact Hgrew | exact Hvoted].
Defined.

(** X27. The view never answers "Blockchain recording failed": the ledger
    returns no receipt whose [success] is false, so that branch cannot be
    taken; and no exception leaves the view, whatever the collaborators
    raise. *)
Theorem api_cast_vote_dead_branch {DB} (orm : Orm DB) fuel request now
    now_vote token now_block (s : DB * BlockchainService) :
  (api_cast_vote orm fuel request now now_vote token now_block s).1
    ≠ Ok BlockchainRecordingFailed
  ∧ ∀ e,
      (api_cast_vote orm fuel request now now_vote token now_block s).1
      ≠ Raise e.
Proof.
  destruct s as [db st]. unfold api_cast_vote. cbn [fst snd].
  destruct (bool_decide (method request = "POST")); cbn [negb]; [| by split].
  destruct (truthy (session_voter_id request)); cbn [negb]; [| by split].
  destruct (body_fields request) as [[e c]|m]; [| by split].
  destruct (Voter_get orm _ db) as [voter|m]; [| by split].
  destruct (Election_get orm e db) as [election|m]; [| by split].
  destruct (Candidate_get orm c db) as [candidate|m]; [| by split].
  destruct (is_active election now); cbn [negb]; [| by split].
  destruct (Vote_exists orm voter election db); [by split |].
  destruct (bool_decide (candidate_constituency candidate
                         = voter_constituency voter)); cbn [negb];
    [| by split].
  destruct (cast_vote_to_blockchain _ _ _ _ _ _ _ st) as [lr st1] eqn:Hcast.
  destruct lr as [receipt|err|]; [| by split ..].
  assert (success receipt = true) as ->.
  { apply cast_vote_cases in Hcast
      as [(? & ? & _ & _ & [= ->] & _)|[Hr _]]; [done | by edestruct Hr]. }
  cbn [negb].
  destruct (Vote_create _ _ _ _ _ _ _ _) as [[[created iso] db1]|m];
    [| by split].
  destruct (Voter_save _ _ _); by split.
Qed.

(** X28. When the view answers "Vote cast successfully", the ledger and
    the database both have the vote: [cast_vote_to_blockchain] returned a
    receipt for the voter's Aadhaar number, the election's id and the
    candidate's id, whose block hash and token are the response's
    [blockchain_hash] and [transaction_hash]; [has_voter_voted] is now true
    on the ledger; the database is the one [Vote.objects.create] and then
    [voter.save()], with [has_voted] set, left; and [receipt_hash] is the
    SHA-256 digest of the Aadhaar number, the election id and the creation
    time joined together. *)
Theorem api_cast_vote_success {DB} (orm : Orm DB) fuel request now
    now_vote token now_block (db db' : DB) (st st' : BlockchainService)
    (bh : string) (th : pyval) (rh ts : string) :
  api_cast_vote orm fuel request now now_vote token now_block (db, st)
    = (Ok (VoteCastSuccessfully bh th rh ts), (db', st')) →
  ∃ voter election candidate receipt created db1,
    cast_vote_to_blockchain fuel (PStr (aadhaar_number voter))
      (PInt (election_pk election)) (PInt (candidate_pk candidate))
      now_vote token now_block st = (Ok receipt, st')
    ∧ bh = block_hash receipt
    ∧ th = PStr token
    ∧ rh = sha256_hex (aadhaar_number voter +:+ pretty (election_pk election)
                        +:+ created)
    ∧ is_active election now = true
    ∧ Vote_exists orm voter election db = false
    ∧ has_voter_voted (PStr (aadhaar_number voter))
        (PInt (election_pk election)) st' = Ok true
    ∧ Vote_create orm request voter election candidate bh th db
      = Returned (created, ts, db1)
    ∧ Voter_save orm (mark_voted voter) db1 = Returned db'.
Proof.
  intros Hrun.
  apply api_cast_vote_cases in Hrun
    as [(_ & _ & Hno)|(_ & _ & e & c & voter & election & candidate & lr
                       & _ & _ & _ & _ & Ha & Hx & _ & Hcast & Hlr)];
    [by edestruct Hno |].
  destruct lr as [receipt|err|]; [| by destruct Hlr | by destruct Hlr].
  destruct Hlr as [_ Hlr].
  destruct (cast_vote_then_has_voter_voted_aux _ _ _ _ _ _ _ _ _ _ Hcast)
    as [_ Hvoted].
  assert (transaction_hash receipt = PStr token) as Htok.
  { apply cast_vote_cases in Hcast
      as [(? & ? & _ & _ & [= ->] & _)|[Hr _]]; [done | by edestruct Hr]. }
  destruct (Vote_create _ _ _ _ _ _ _ _) as [[[created iso] db1]|m] eqn:Hcr;
    [| by destruct Hlr].
  destruct (Voter_save _ _ _) as [db2|m] eqn:Hsave; [| by destruct Hlr].
  destruct Hlr as [[= -> -> -> ->] ->].
  exists voter, election, candidate, receipt, created, db1.
  split_and!; done.
Qed.

Lemma api_cast_vote_success_witness :
  ∃ bh rh st',
    api_cast_vote (demo_orm false) 8 demo_request 150
      "2024-01-15 10:40:00.000001" "000102030405060708090a0b0c0d0e0f"
      "2024-01-15 10:40:00.000052" ([], demo_state_0)
    = (Ok (VoteCastSuccessfully bh
             (PStr "000102030405060708090a0b0c0d0e0f") rh
             "2024-01-15T10:40:01.500000+00:00"), ([(1, 1)], st'))
    ∧ rh = "02d0082dda79db1a0edcc166c72d1b78c2b8d373f146cd0f19ba494e0db08f91"
    ∧ ∃ voter election,
        has_voter_voted (PStr (aadhaar_number voter))
          (PInt (election_pk election)) st' = Ok true.
Proof.
  assert (∃ bh rh st',
            api_cast_vote (demo_orm false) 8 demo_request 150
              "2024-01-15 10:40:00.000001" "000102030405060708090a0b0c0d0e0f"
              "2024-01-15 10:40:00.000052" ([], demo_state_0)
            = (Ok (VoteCastSuccessfully bh
                     (PStr "000102030405060708090a0b0c0d0e0f") rh
                     "2024-01-15T10:40:01.500000+00:00"), ([(1, 1)], st'))
            ∧ rh = "02d0082dda79db1a0edcc166c72d1b78c2b8d373f146cd0f19ba494e0db08f91")
    as (bh & rh & st' & Hrun & Hrh)
    by (eexists _, _, _; split; vm_compute; reflexivity).
  exists bh, rh, st'.
  destruct (api_cast_vote_success (demo_orm false) 8 demo_request 150
              "2024-01-15 10:40:00.000001" "000102030405060708090a0b0c0d0e0f"
              "2024-01-15 10:40:00.000052" [] [(1, 1)] demo_state_0 st' bh _
              rh _ Hrun)
    as (voter & election & _ & _ & _ & _ & _ & _ & _ & _ & _ & _ & Hvoted & _).
  split_and!; [exact Hrun | exact Hrh |]. by exists voter, election.
Defined.
